(** * canastracounter-go: the game and score store behind the HTTP handlers

    A shallow embedding of [src/server/main.go] (and of the one handler in
    which the older [src/main.go] differs), followed by the properties of
    the store operations.

    The Go handlers are embedded as functions from the database contents and
    a request to the new contents and a response.  The SQL statements they
    send are embedded as functions on the three tables, following SQLite's
    rules for the schema of [initDB]. *)

From Stdlib Require Import ZArith List String Ascii Bool Lia Permutation.
From Stdlib Require Import Floats.SpecFloat.
From Stdlib Require Import DecimalString.
Import ListNotations.

Local Open Scope string_scope.
Local Open Scope list_scope.
Local Open Scope Z_scope.

(* ================================================================= *)
(** ** Go's [int] and what [encoding/json] accepts for it *)

Module GoInt.

(** [int] on the 64-bit targets the server is built for. *)
Definition min_int : Z := - 2 ^ 63.
Definition max_int : Z := 2 ^ 63 - 1.

Definition in_range (z : Z) : bool := (min_int <=? z) && (z <=? max_int).

(** Decoding a JSON integer literal into an [int] field: a literal that
    does not fit is a decode error. *)
Definition decode (z : Z) : option Z := if in_range z then Some z else None.

End GoInt.

(* ================================================================= *)
(** ** SQLite values and the arithmetic of [score + ?] *)

Module Sqlite.

(** Storage classes that can occur in the [score] column. *)
Inductive value : Type :=
| Null
| Integer (i : Z)
| Real (r : spec_float).

(** IEEE binary64, as SQLite's REAL. *)
Definition prec : Z := 53.
Definition emax : Z := 1024.

Definition real_of_int (i : Z) : spec_float := binary_normalize prec emax i 0 false.
Definition real_add (x y : spec_float) : spec_float := SFadd prec emax x y.

(** The integer a REAL denotes, when it denotes one. *)
Definition int_of_real (r : spec_float) : option Z :=
  match r with
  | S754_zero _ => Some 0
  | S754_finite s m e =>
      if 0 <=? e then Some (cond_Zopp s (Zpos m * 2 ^ e))
      else if Zpos m mod 2 ^ (- e) =? 0
           then Some (cond_Zopp s (Zpos m / 2 ^ (- e)))
           else None
  | _ => None
  end.

(** Storing a REAL into a column of INTEGER affinity: it becomes an
    INTEGER when the conversion loses nothing and the integer is neither
    the smallest nor the largest 64-bit integer; a NaN is stored as NULL. *)
Definition integer_affinity (r : spec_float) : value :=
  match r with
  | S754_nan => Null
  | _ =>
      match int_of_real r with
      | Some ix =>
          if (GoInt.min_int <? ix) && (ix <? GoInt.max_int)
          then Integer ix else Real r
      | None => Real r
      end
  end.

(** [score + ?] with an INTEGER bound to [?], stored back into [score].
    Two INTEGERs are added as 64-bit integers; when that overflows, the
    result is the sum of the two operands as REALs.  Such a sum is beyond
    the 64-bit range, and the column keeps it as a REAL.  A REAL score and
    the INTEGER are added as REALs, and the column's affinity applies to
    the sum.  NULL stays NULL. *)
Definition add_int (score : value) (delta : Z) : value :=
  match score with
  | Null => Null
  | Integer a =>
      if GoInt.in_range (a + delta) then Integer (a + delta)
      else Real (real_add (real_of_int a) (real_of_int delta))
  | Real r => integer_affinity (real_add r (real_of_int delta))
  end.

(** Errors the statements of this program can meet. *)
Inductive error : Type :=
| ErrConstraintPrimaryKey   (* UNIQUE constraint failed: game_players.player_id, game_players.game_id *)
| ErrConstraintForeignKey   (* FOREIGN KEY constraint failed *)
| ErrNoRows                 (* sql.ErrNoRows from Row.Scan *)
| ErrScan.                  (* Rows.Scan could not convert a column *)

End Sqlite.
Export Sqlite.

(* ================================================================= *)
(** ** The database

    The three tables created by [initDB]:
<<
    players      (id INTEGER PRIMARY KEY AUTOINCREMENT, name TEXT NOT NULL)
    games        (id INTEGER PRIMARY KEY AUTOINCREMENT, max_points INTEGER NOT NULL)
    game_players (game_id INTEGER NOT NULL, player_id INTEGER NOT NULL,
                  score INTEGER DEFAULT 0,
                  PRIMARY KEY (player_id, game_id)
                  FOREIGN KEY(player_id) REFERENCES players(id),
                  FOREIGN KEY(game_id) REFERENCES games(id))
>>
    Each table is the list of its rows in rowid order, which is the order of
    insertion: no statement of the program deletes a row or sets a rowid. *)

Record PlayerRow : Type := { pl_id : Z; pl_name : string }.

Record GameRow : Type := { gm_id : Z; gm_max_points : Z }.

Record GamePlayerRow : Type :=
  { gp_rowid : Z; gp_game_id : Z; gp_player_id : Z; gp_score : value }.

Record DB : Type :=
  { players : list PlayerRow;
    games : list GameRow;
    game_players : list GamePlayerRow }.

(** The connection.  [foreign_keys] is SQLite's per-connection switch for
    enforcing FOREIGN KEY clauses. *)
Record Conn : Type := { foreign_keys : bool }.

(** [sql.Open("sqlite3", "./canastra.db")]: the data source name carries no
    [_foreign_keys] parameter and the program issues no PRAGMA, so the
    connection keeps SQLite's default, which is off. *)
Definition db : Conn := {| foreign_keys := false |}.

(** [CREATE TABLE IF NOT EXISTS] on a new file. *)
Definition initDB : DB := {| players := []; games := []; game_players := [] |}.

(** The outcome of a statement.  Failures that come from the environment
    (an I/O error, a full disk, a locked file, a table that has used up its
    2^63 rowids) are not modelled. *)
Inductive result (A : Type) : Type :=
| Ok (a : A)
| Err (e : error).
Arguments Ok {A} a.
Arguments Err {A} e.

(** The rowid given to a new row: one more than the largest in the table.
    (With AUTOINCREMENT it is one more than the largest the table ever had;
    the two agree as long as nothing is deleted.) *)
Definition next_rowid (ids : list Z) : Z := 1 + fold_right Z.max 0 ids.

(** How SQLite reads the TEXT bound to [?] in [game_id = ?]: the column has
    INTEGER affinity, so the text is converted to a number when it is a
    well-formed literal, and compares equal to no integer otherwise.
    [text_as_integer s] is the integer the text is equal to, if any. *)
Class TextAffinity : Type := text_as_integer : string -> option Z.

(** [INSERT INTO players (name) VALUES (?)], with the new id. *)
Definition insert_player (d : DB) (name : string) : result (DB * Z) :=
  let id := next_rowid (map pl_id (players d)) in
  Ok ({| players := players d ++ [{| pl_id := id; pl_name := name |}];
         games := games d;
         game_players := game_players d |}, id).

(** [INSERT INTO games (max_points) VALUES (?)], with the new id. *)
Definition insert_game (d : DB) (max_points : Z) : result (DB * Z) :=
  let id := next_rowid (map gm_id (games d)) in
  Ok ({| players := players d;
         games := games d ++ [{| gm_id := id; gm_max_points := max_points |}];
         game_players := game_players d |}, id).

Definition same_pair (game_id player_id : Z) (r : GamePlayerRow) : bool :=
  (gp_game_id r =? game_id) && (gp_player_id r =? player_id).

Definition has_player (d : DB) (id : Z) : bool :=
  existsb (fun r => pl_id r =? id) (players d).

Definition has_game (d : DB) (id : Z) : bool :=
  existsb (fun r => gm_id r =? id) (games d).

(** [INSERT INTO game_players (player_id, game_id) VALUES (?, ?)]: the
    primary key must be new; the parent rows must exist when the connection
    enforces foreign keys; [score] takes its default. *)
Definition insert_game_player (c : Conn) (d : DB) (player_id game_id : Z)
  : result (DB * Z) :=
  if existsb (same_pair game_id player_id) (game_players d)
  then Err ErrConstraintPrimaryKey
  else if foreign_keys c && negb (has_player d player_id && has_game d game_id)
  then Err ErrConstraintForeignKey
  else
    let id := next_rowid (map gp_rowid (game_players d)) in
    Ok ({| players := players d;
           games := games d;
           game_players := game_players d ++
             [{| gp_rowid := id; gp_game_id := game_id;
                 gp_player_id := player_id; gp_score := Integer 0 |}] |}, id).

(** [UPDATE game_players SET score = score + ? WHERE game_id = ? AND player_id = ?] *)
Definition bump (delta game_id player_id : Z) (r : GamePlayerRow) : GamePlayerRow :=
  if same_pair game_id player_id r
  then {| gp_rowid := gp_rowid r; gp_game_id := gp_game_id r;
          gp_player_id := gp_player_id r;
          gp_score := add_int (gp_score r) delta |}
  else r.

Definition update_score (d : DB) (delta game_id player_id : Z) : result DB :=
  Ok {| players := players d;
        games := games d;
        game_players := map (bump delta game_id player_id) (game_players d) |}.

(** [Scan] of a column into an [int].  An INTEGER fits.  A REAL reaches the
    [database/sql] conversion as a float64, which is printed and parsed as an
    integer; the REALs that [add_int] leaves in the column are beyond the
    64-bit range, their printed form has an exponent, and the parse fails.
    NULL is refused. *)
Definition scan_int (v : value) : result Z :=
  match v with
  | Integer i => Ok i
  | Real _ => Err ErrScan
  | Null => Err ErrScan
  end.

(** [SELECT score FROM game_players WHERE game_id = ? AND player_id = ?]
    through [QueryRow] and [Scan]: the first row, or [sql.ErrNoRows]. *)
Definition select_score (d : DB) (game_id player_id : Z) : result Z :=
  match find (same_pair game_id player_id) (game_players d) with
  | Some r => scan_int (gp_score r)
  | None => Err ErrNoRows
  end.

(** [SELECT game_id, player_id, score FROM game_players WHERE game_id = ?]
    with the TEXT of the query parameter bound to [?]. *)
Definition in_game `{TextAffinity} (id : string) (r : GamePlayerRow) : bool :=
  match text_as_integer id with
  | Some g => gp_game_id r =? g
  | None => false
  end.

Definition select_game_players `{TextAffinity} (d : DB) (id : string)
  : list GamePlayerRow :=
  filter (in_game id) (game_players d).

(* ================================================================= *)
(** ** Requests and responses *)

(** The Go structs that are written to the wire. *)
Record GamePlayer : Type := { PlayerId : Z; GameId : Z; Score : Z }.

Record Response : Type := { Message : string; Success : bool }.

(** The JSON document written by a handler.  [Created] stands for the three
    anonymous structs with the fields [id], [message] and [success];
    [Updated] for the one with [new_score]; [Data] for [{data: [...]}]. *)
Inductive payload : Type :=
| NoBody
| Plain (r : Response)
| Created (id : Z) (message : string) (success : bool)
| Updated (new_score : Z) (message : string) (success : bool)
| Data (data : list GamePlayer).

(** A response: the status and the document.  Headers are not modelled. *)
Record Reply : Type := { Status : Z; Body : payload }.

Definition StatusOK : Z := 200.
Definition StatusCreated : Z := 201.
Definition StatusBadRequest : Z := 400.
Definition StatusMethodNotAllowed : Z := 405.

Definition MethodGet : string := "GET".
Definition MethodPost : string := "POST".
Definition MethodPut : string := "PUT".
Definition MethodOptions : string := "OPTIONS".

(** What a request body holds for the fields the handlers decode.  A field
    absent from the JSON object reads as Go's zero value.  Integer fields
    carry the literal as written. *)
Record Fields : Type :=
  { name : string; max_points : Z; game_id : Z; player_id : Z; score : Z }.

(** A request as a handler sees it: the method, the [game_id] parameter of
    the URL query, and the body, [None] when [Decode] refuses it whatever the
    integers are (syntax error, empty body, a value of the wrong kind for a
    field the handler decodes). *)
Record Request : Type :=
  { Method : string; Query_game_id : string; Json : option Fields }.

(** [json.NewDecoder(r.Body).Decode(&requestData)] for each [requestData]. *)
Definition decode_max_points (r : Request) : option Z :=
  match Json r with
  | Some f => GoInt.decode (max_points f)
  | None => None
  end.

Definition decode_score_update (r : Request) : option (Z * Z * Z) :=
  match Json r with
  | Some f =>
      match GoInt.decode (game_id f), GoInt.decode (player_id f), GoInt.decode (score f) with
      | Some g, Some p, Some s => Some (g, p, s)
      | _, _, _ => None
      end
  | None => None
  end.

Definition decode_pair (r : Request) : option (Z * Z) :=
  match Json r with
  | Some f =>
      match GoInt.decode (player_id f), GoInt.decode (game_id f) with
      | Some p, Some g => Some (p, g)
      | _, _ => None
      end
  | None => None
  end.

Definition decode_name (r : Request) : option string :=
  match Json r with
  | Some f => Some (name f)
  | None => None
  end.

Definition respondWithError (statusCode : Z) : Reply :=
  {| Status := statusCode;
     Body := Plain {| Message := "internal_server_error"; Success := false |} |}.

Definition method_not_allowed : Reply :=
  {| Status := StatusMethodNotAllowed;
     Body := Plain {| Message := "method_not_allowed"; Success := false |} |}.

Definition invalid_json : Reply :=
  {| Status := StatusBadRequest;
     Body := Plain {| Message := "invalid_json"; Success := false |} |}.

(* ================================================================= *)
(** ** The handlers of [src/server/main.go] *)

Section Handlers.

Context `{TextAffinity}.

(** ["/"] *)
Definition handle_root (d : DB) (r : Request) : DB * Reply :=
  (d, {| Status := StatusOK;
         Body := Plain {| Message := "all good"; Success := true |} |}).

(** ["/games/new"] *)
Definition handle_games_new (d : DB) (r : Request) : DB * Reply :=
  if negb (Method r =? MethodPost)%string then (d, method_not_allowed)
  else
    match decode_max_points r with
    | None => (d, invalid_json)
    | Some MaxPoints =>
        match insert_game d MaxPoints with
        | Err _ => (d, respondWithError 500)
        | Ok (d', id) =>
            (d', {| Status := StatusCreated;
                    Body := Created id "game_created" true |})
        end
    end.

(** The loop over [rows.Next()]: the first [Scan] that fails ends the
    handler with an error. *)
Fixpoint scan_rows (rows : list GamePlayerRow) : result (list GamePlayer) :=
  match rows with
  | [] => Ok []
  | r :: rows' =>
      match scan_int (gp_score r) with
      | Err e => Err e
      | Ok s =>
          match scan_rows rows' with
          | Err e => Err e
          | Ok gamePlayers =>
              Ok ({| PlayerId := gp_player_id r; GameId := gp_game_id r;
                     Score := s |} :: gamePlayers)
          end
      end
  end.

(** ["/games"] *)
Definition handle_games (d : DB) (r : Request) : DB * Reply :=
  if negb (Method r =? MethodGet)%string then (d, method_not_allowed)
  else
    let id := Query_game_id r in
    match scan_rows (select_game_players d id) with
    | Err _ => (d, respondWithError 500)
    | Ok gamePlayers =>
        (d, {| Status := StatusCreated; Body := Data gamePlayers |})
    end.

(** ["/games/update-score"] *)
Definition handle_games_update_score (d : DB) (r : Request) : DB * Reply :=
  if negb (Method r =? MethodPut)%string then (d, method_not_allowed)
  else
    match decode_score_update r with
    | None => (d, invalid_json)
    | Some (GameId, PlayerId, Score) =>
        match update_score d Score GameId PlayerId with
        | Err _ => (d, respondWithError 500)
        | Ok d' =>
            match select_score d' GameId PlayerId with
            | Err _ => (d', respondWithError 500)
            | Ok NewScore =>
                (d', {| Status := StatusCreated;
                        Body := Updated NewScore "game_updated" true |})
            end
        end
    end.

(** ["/games/players/add"] *)
Definition handle_games_players_add (d : DB) (r : Request) : DB * Reply :=
  if negb (Method r =? MethodPost)%string then (d, method_not_allowed)
  else
    match decode_pair r with
    | None => (d, invalid_json)
    | Some (PlayerId, GameId) =>
        match insert_game_player db d PlayerId GameId with
        | Err _ => (d, respondWithError 500)
        | Ok (d', id) =>
            (d', {| Status := StatusCreated;
                    Body := Created id "game_player_created" true |})
        end
    end.

(** ["/players/add"] *)
Definition handle_players_add (d : DB) (r : Request) : DB * Reply :=
  if negb (Method r =? MethodPost)%string then (d, method_not_allowed)
  else
    match decode_name r with
    | None => (d, invalid_json)
    | Some Name =>
        if (Name =? EmptyString)%string
        then (d, {| Status := StatusBadRequest;
                    Body := Plain {| Message := "validation_error: name can't be blank";
                                     Success := false |} |})
        else
          match insert_player d Name with
          | Err _ => (d, respondWithError 500)
          | Ok (d', id) =>
              (d', {| Status := StatusCreated;
                      Body := Created id "user_created" true |})
          end
    end.

(** The pattern of the [ServeMux] a request is dispatched to. *)
Inductive Route : Type :=
| Root | GamesNew | Games | GamesUpdateScore | GamesPlayersAdd | PlayersAdd.

Definition mux (route : Route) : DB -> Request -> DB * Reply :=
  match route with
  | Root => handle_root
  | GamesNew => handle_games_new
  | Games => handle_games
  | GamesUpdateScore => handle_games_update_score
  | GamesPlayersAdd => handle_games_players_add
  | PlayersAdd => handle_players_add
  end.

(** [corsMiddleware]: an OPTIONS request is answered at once, with status
    200 and no body; the response headers it sets are not modelled. *)
Definition corsMiddleware (next : DB -> Request -> DB * Reply)
  : DB -> Request -> DB * Reply :=
  fun d r =>
    if (Method r =? MethodOptions)%string
    then (d, {| Status := StatusOK; Body := NoBody |})
    else next d r.

(** [logRequest] writes a log line and calls the next handler. *)
Definition logRequest (handler : DB -> Request -> DB * Reply)
  : DB -> Request -> DB * Reply :=
  fun d r => handler d r.

Definition serverMiddlewares (handler : DB -> Request -> DB * Reply)
  (middlewares : list ((DB -> Request -> DB * Reply) -> DB -> Request -> DB * Reply))
  : DB -> Request -> DB * Reply :=
  fold_left (fun h middleware => middleware h) middlewares handler.

(** The server's handler for a request dispatched to [route]. *)
Definition serve (route : Route) : DB -> Request -> DB * Reply :=
  serverMiddlewares (mux route) [corsMiddleware; logRequest].

(** The contents of the database after a run of requests. *)
Fixpoint run (d : DB) (reqs : list (Route * Request)) : DB :=
  match reqs with
  | [] => d
  | (route, r) :: reqs' => run (fst (serve route d r)) reqs'
  end.

(** The states the server can be in: the freshly created database, and
    whatever a served request leaves behind. *)
Inductive reachable : DB -> Prop :=
| reachable_init : reachable initDB
| reachable_serve : forall d route r,
    reachable d -> reachable (fst (serve route d r)).

End Handlers.

(* ================================================================= *)
(** ** [src/main.go]

    The older entry point registers the same handlers on the default mux,
    without the middlewares; its SQL names the column [maximum_score] where
    the server says [max_points].  Only its ["/"] handler answers
    differently. *)

Module RootMain.

Definition handle_root (d : DB) (r : Request) : DB * Reply :=
  (d, {| Status := StatusCreated;
         Body := Plain {| Message := "Player created"; Success := true |} |}).

(** The other handlers, as [src/main.go] writes them: every store error is
    answered in place with status 500 and [internal_server_error]. *)

Definition StatusInternalServerError : Z := 500.

Definition internal_server_error : Reply :=
  {| Status := StatusInternalServerError;
     Body := Plain {| Message := "internal_server_error"; Success := false |} |}.

(** ["/games/new"] *)
Definition handle_games_new (d : DB) (r : Request) : DB * Reply :=
  if negb (Method r =? MethodPost)%string then (d, method_not_allowed)
  else
    match decode_max_points r with
    | None => (d, invalid_json)
    | Some MaximumScore =>
        match insert_game d MaximumScore with
        | Err _ => (d, internal_server_error)
        | Ok (d', id) =>
            (d', {| Status := StatusCreated; Body := Created id "game_created" true |})
        end
    end.

(** ["/games"] *)
Definition handle_games `{TextAffinity} (d : DB) (r : Request) : DB * Reply :=
  if negb (Method r =? MethodGet)%string then (d, method_not_allowed)
  else
    let id := Query_game_id r in
    match scan_rows (select_game_players d id) with
    | Err _ => (d, internal_server_error)
    | Ok gamePlayers => (d, {| Status := StatusCreated; Body := Data gamePlayers |})
    end.

(** ["/games/update-score"] *)
Definition handle_games_update_score (d : DB) (r : Request) : DB * Reply :=
  if negb (Method r =? MethodPut)%string then (d, method_not_allowed)
  else
    match decode_score_update r with
    | None => (d, invalid_json)
    | Some (GameId, PlayerId, Score) =>
        match update_score d Score GameId PlayerId with
        | Err _ => (d, internal_server_error)
        | Ok d' =>
            match select_score d' GameId PlayerId with
            | Err _ => (d', internal_server_error)
            | Ok NewScore =>
                (d', {| Status := StatusCreated;
                        Body := Updated NewScore "game_updated" true |})
            end
        end
    end.

(** ["/games/players/add"] *)
Definition handle_games_players_add (d : DB) (r : Request) : DB * Reply :=
  if negb (Method r =? MethodPost)%string then (d, method_not_allowed)
  else
    match decode_pair r with
    | None => (d, invalid_json)
    | Some (PlayerId, GameId) =>
        match insert_game_player db d PlayerId GameId with
        | Err _ => (d, internal_server_error)
        | Ok (d', id) =>
            (d', {| Status := StatusCreated;
                    Body := Created id "game_player_created" true |})
        end
    end.

(** ["/players/add"] *)
Definition handle_players_add (d : DB) (r : Request) : DB * Reply :=
  if negb (Method r =? MethodPost)%string then (d, method_not_allowed)
  else
    match decode_name r with
    | None => (d, invalid_json)
    | Some Name =>
        if (Name =? EmptyString)%string
        then (d, {| Status := StatusBadRequest;
                    Body := Plain {| Message := "validation_error: name can't be blank";
                                     Success := false |} |})
        else
          match insert_player d Name with
          | Err _ => (d, internal_server_error)
          | Ok (d', id) =>
              (d', {| Status := StatusCreated; Body := Created id "user_created" true |})
          end
    end.

(** The default mux of [net/http], on which the handlers are registered;
    no middleware stands before it. *)
Definition mux `{TextAffinity} (route : Route) : DB -> Request -> DB * Reply :=
  match route with
  | Root => handle_root
  | GamesNew => handle_games_new
  | Games => handle_games
  | GamesUpdateScore => handle_games_update_score
  | GamesPlayersAdd => handle_games_players_add
  | PlayersAdd => handle_players_add
  end.

End RootMain.

(* ================================================================= *)
(** ** The operations, as requests to the server *)

Definition no_fields : Fields :=
  {| name := EmptyString; max_points := 0; game_id := 0; player_id := 0; score := 0 |}.

Definition request (method : string) (f : Fields) : Request :=
  {| Method := method; Query_game_id := EmptyString; Json := Some f |}.

Section Operations.

Context `{TextAffinity}.

Definition RegisterPlayer (d : DB) (n : string) : DB * Reply :=
  serve PlayersAdd d
    (request MethodPost
       {| name := n; max_points := 0; game_id := 0; player_id := 0; score := 0 |}).

Definition CreateGame (d : DB) (scoreCeiling : Z) : DB * Reply :=
  serve GamesNew d
    (request MethodPost
       {| name := EmptyString; max_points := scoreCeiling; game_id := 0; player_id := 0;
          score := 0 |}).

Definition AttachPlayer (d : DB) (gameId playerId : Z) : DB * Reply :=
  serve GamesPlayersAdd d
    (request MethodPost
       {| name := EmptyString; max_points := 0; game_id := gameId; player_id := playerId;
          score := 0 |}).

Definition ApplyScoreDelta (d : DB) (gameId playerId delta : Z) : DB * Reply :=
  serve GamesUpdateScore d
    (request MethodPut
       {| name := EmptyString; max_points := 0; game_id := gameId; player_id := playerId;
          score := delta |}).

Definition ListScores (d : DB) (gameId : string) : DB * Reply :=
  serve Games d {| Method := MethodGet; Query_game_id := gameId; Json := None |}.

(** A sequence of deltas applied to one pair, one request after the other. *)
Fixpoint apply_deltas (d : DB) (gameId playerId : Z) (deltas : list Z) : DB :=
  match deltas with
  | [] => d
  | delta :: deltas' =>
      apply_deltas (fst (ApplyScoreDelta d gameId playerId delta)) gameId playerId deltas'
  end.

End Operations.

(** The row of a pair, and its score. *)
Definition attached (d : DB) (gameId playerId : Z) : bool :=
  existsb (same_pair gameId playerId) (game_players d).

Definition score_of (d : DB) (gameId playerId : Z) : option value :=
  option_map gp_score (find (same_pair gameId playerId) (game_players d)).

Definition pair_of (r : GamePlayerRow) : Z * Z := (gp_player_id r, gp_game_id r).

(** A success, as the client sees it: status 201. *)
Definition succeeded (r : Reply) : bool := Status r =? StatusCreated.

(* ================================================================= *)
(** ** Reading plain decimal literals

    One [TextAffinity], used to evaluate the handlers on concrete requests:
    an optional minus sign and decimal digits, within the 64-bit range.  It
    agrees with SQLite on such texts. *)

Definition digit_of (c : ascii) : option Z :=
  let n := Z.of_nat (nat_of_ascii c) in
  if (48 <=? n) && (n <=? 57) then Some (n - 48) else None.

Fixpoint digits_value (s : string) (acc : Z) : option Z :=
  match s with
  | EmptyString => Some acc
  | String c s' =>
      match digit_of c with
      | Some k => digits_value s' (10 * acc + k)
      | None => None
      end
  end.

Definition decimal_literal (s : string) : option Z :=
  match s with
  | EmptyString => None
  | String "-" EmptyString => None
  | String "-" s' => option_map Z.opp (digits_value s' 0)
  | _ => digits_value s 0
  end.

Definition decimal_text : TextAffinity :=
  fun s =>
    match decimal_literal s with
    | Some z => if GoInt.in_range z then Some z else None
    | None => None
    end.

(* ================================================================= *)
(** ** Blank names

    The wording of the specification: a name is blank when it consists of
    white space only (the empty name included). *)

Definition is_space (c : ascii) : bool :=
  let n := nat_of_ascii c in
  (n =? 32)%nat || ((9 <=? n)%nat && (n <=? 13)%nat).

Fixpoint blank (s : string) : bool :=
  match s with
  | EmptyString => true
  | String c s' => is_space c && blank s'
  end.

(* ================================================================= *)
(** ** Sample states

    The scenario of the specification: Alice and Bob register, a game with
    ceiling 3000 is created, and both are attached to it. *)

Definition one_game : DB :=
  fst (@CreateGame decimal_text
         (fst (@RegisterPlayer decimal_text
                 (fst (@RegisterPlayer decimal_text initDB "Alice")) "Bob")) 3000).

Definition alice_and_bob : DB :=
  fst (@AttachPlayer decimal_text (fst (@AttachPlayer decimal_text one_game 1 1)) 1 2).

(** Bob's score, taken to the largest [int] and one beyond. *)
Definition overflowed : DB :=
  @apply_deltas decimal_text alice_and_bob 1 2 [GoInt.max_int; 1].

Definition attach_request (gameId playerId : Z) : Route * Request :=
  (GamesPlayersAdd,
   request MethodPost
     {| name := EmptyString; max_points := 0; game_id := gameId; player_id := playerId;
        score := 0 |}).

Definition delta_request (gameId playerId delta : Z) : Route * Request :=
  (GamesUpdateScore,
   request MethodPut
     {| name := EmptyString; max_points := 0; game_id := gameId; player_id := playerId;
        score := delta |}).

Definition get_request (id : string) : Request :=
  {| Method := MethodGet; Query_game_id := id; Json := None |}.

Definition put_without_body : Request :=
  {| Method := MethodPut; Query_game_id := EmptyString; Json := None |}.

Definition options_request : Request :=
  {| Method := MethodOptions; Query_game_id := EmptyString; Json := None |}.

(* ================================================================= *)
(** ** Vocabulary of the properties *)

(** The row that attaching a pair appends. *)
Definition new_row (l : list GamePlayerRow) (gameId playerId : Z) : GamePlayerRow :=
  {| gp_rowid := next_rowid (map gp_rowid l); gp_game_id := gameId;
     gp_player_id := playerId; gp_score := Integer 0 |}.

Definition sum (deltas : list Z) : Z := fold_right Z.add 0 deltas.

(** Every delta is an [int], and so is every running total from [acc] on. *)
Fixpoint within (acc : Z) (deltas : list Z) : bool :=
  match deltas with
  | [] => true
  | delta :: deltas' =>
      GoInt.in_range delta && GoInt.in_range (acc + delta) && within (acc + delta) deltas'
  end.

(** The request is a score update for the pair. *)
Definition updates_pair (gameId playerId : Z) (q : Route * Request) : bool :=
  match fst q, decode_score_update (snd q) with
  | GamesUpdateScore, Some (g, p, _) =>
      (Method (snd q) =? MethodPut)%string && (g =? gameId) && (p =? playerId)
  | _, _ => false
  end.

(** The request asks to attach the pair. *)
Definition attaches_pair (gameId playerId : Z) (q : Route * Request) : bool :=
  match fst q, decode_pair (snd q) with
  | GamesPlayersAdd, Some (p, g) =>
      (Method (snd q) =? MethodPost)%string && (g =? gameId) && (p =? playerId)
  | _, _ => false
  end.

(** The method a route insists on; the root route takes any. *)
Definition method_of (route : Route) : option string :=
  match route with
  | Root => None
  | GamesNew => Some MethodPost
  | Games => Some MethodGet
  | GamesUpdateScore => Some MethodPut
  | GamesPlayersAdd => Some MethodPost
  | PlayersAdd => Some MethodPost
  end.

Definition wrong_method (route : Route) (r : Request) : bool :=
  match method_of route with
  | Some m => negb (Method r =? m)%string
  | None => false
  end.

(** The body is refused by the route's [Decode]; the routes that read no
    body refuse none. *)
Definition malformed (route : Route) (r : Request) : bool :=
  match route with
  | Root | Games => false
  | GamesNew => match decode_max_points r with Some _ => false | None => true end
  | GamesUpdateScore => match decode_score_update r with Some _ => false | None => true end
  | GamesPlayersAdd => match decode_pair r with Some _ => false | None => true end
  | PlayersAdd => match decode_name r with Some _ => false | None => true end
  end.

(** The body of a registration decodes to the empty name. *)
Definition empty_name (route : Route) (r : Request) : bool :=
  match route, decode_name r with
  | PlayersAdd, Some n => (n =? EmptyString)%string
  | _, _ => false
  end.

Definition validation_error : Reply :=
  {| Status := StatusBadRequest;
     Body := Plain {| Message := "validation_error: name can't be blank";
                      Success := false |} |}.

Definition all_good : Reply :=
  {| Status := StatusOK; Body := Plain {| Message := "all good"; Success := true |} |}.

(** A row as [ListScores] reports it. *)
Definition listed (g : GamePlayer) : Z * value := (PlayerId g, Integer (Score g)).

Definition stored (r : GamePlayerRow) : Z * value := (gp_player_id r, gp_score r).

(** The entry [x] of a listing reports the row [r]. *)
Definition reports (r : GamePlayerRow) (x : GamePlayer) : Prop :=
  PlayerId x = gp_player_id r /\ GameId x = gp_game_id r
  /\ gp_score r = Integer (Score x).

Definition integer_score (r : GamePlayerRow) : bool :=
  match gp_score r with
  | Integer _ => true
  | _ => false
  end.

Definition key_in_range (r : GamePlayerRow) : bool :=
  GoInt.in_range (gp_game_id r) && GoInt.in_range (gp_player_id r).

(* ================================================================= *)
(** ** More vocabulary: what a request leaves of the tables *)

(** What identifies a row of [game_players]: everything but the score. *)
Definition ident (r : GamePlayerRow) : Z * Z * Z :=
  (gp_rowid r, gp_game_id r, gp_player_id r).

(** The numbers 1, 2, ..., n. *)
Definition iota (n : nat) : list Z := map Z.of_nat (seq 1 n).

(** The handlers that work on [game_players]. *)
Definition ledger_route (route : Route) : bool :=
  match route with
  | Games | GamesUpdateScore | GamesPlayersAdd => true
  | _ => false
  end.

(* ================================================================= *)
(** ** The documents on the wire

    JSON values; the numbers that occur are integers. *)

#[local] Unset Elimination Schemes.
Inductive json : Type :=
| JNull
| JBool (b : bool)
| JNumber (z : Z)
| JString (s : string)
| JArray (items : list json)
| JObject (members : list (string * json)).
#[local] Set Elimination Schemes.

(** [json.NewEncoder(w).Encode] on the structs of [src/server/main.go],
    with the field names of their tags, in the order of the fields. *)
Definition encode_Response (r : Response) : json :=
  JObject [("message", JString (Message r)); ("success", JBool (Success r))].

Definition encode_GamePlayer (g : GamePlayer) : json :=
  JObject [("player_id", JNumber (PlayerId g)); ("game_id", JNumber (GameId g));
           ("score", JNumber (Score g))].

Definition encode (p : payload) : option json :=
  match p with
  | NoBody => None
  | Plain r => Some (encode_Response r)
  | Created id message success =>
      Some (JObject [("id", JNumber id); ("message", JString message);
                     ("success", JBool success)])
  | Updated new_score message success =>
      Some (JObject [("new_score", JNumber new_score); ("message", JString message);
                     ("success", JBool success)])
  | Data data => Some (JObject [("data", JArray (map encode_GamePlayer data))])
  end.

(** A JSON number as JavaScript reads it: the nearest double.  Integers up
    to 2^53 in magnitude are doubles; a number too large for a double is
    not finite. *)
Definition js_number (z : Z) : option Z :=
  if Z.abs z <=? 2 ^ 53 then Some z else int_of_real (real_of_int z).

(** The member of an object that JavaScript keeps for a key: the last. *)
Fixpoint member (key : string) (members : list (string * json)) : option json :=
  match members with
  | [] => None
  | (k, v) :: members' =>
      match member key members' with
      | Some v' => Some v'
      | None => if (k =? key)%string then Some v else None
      end
  end.

(* ================================================================= *)
(** ** The client, [src/client/src/Main.elm] *)

(** [String.toInt] and [String.fromInt] of Elm's core library. *)
Class ElmString : Type :=
  { String_toInt : string -> option Z;
    String_fromInt : Z -> string }.

Module Client.

Inductive Result (x a : Type) : Type :=
| Ok (v : a)
| Err (e : x).
Arguments Ok {x a} v.
Arguments Err {x a} e.

(** [Http.Error]; the text carried by [BadBody] is left out. *)
Inductive Http_Error : Type :=
| BadUrl (url : string)
| Timeout
| NetworkError
| BadStatus (statusCode : Z)
| BadBody.

(** [Http.Response], with the body as the document it holds, [None] for a
    body that is no JSON text. *)
Inductive Http_Response : Type :=
| BadUrl_ (url : string)
| Timeout_
| NetworkError_
| BadStatus_ (statusCode : Z) (body : option json)
| GoodStatus_ (statusCode : Z) (body : option json).

(** [Json.Decode]: a decoder reads a value or fails. *)
Definition Decoder (a : Type) : Type := json -> option a.

Definition Decode_string : Decoder string :=
  fun j => match j with JString s => Some s | _ => None end.

Definition Decode_int : Decoder Z :=
  fun j => match j with JNumber z => js_number z | _ => None end.

(** [Decode.field], for keys that are names of no built-in property, as are
    all the keys of this program. *)
Definition Decode_field {a : Type} (key : string) (d : Decoder a) : Decoder a :=
  fun j =>
    match j with
    | JObject members =>
        match member key members with
        | Some v => d v
        | None => None
        end
    | _ => None
    end.

Fixpoint decode_items {a : Type} (d : Decoder a) (items : list json) : option (list a) :=
  match items with
  | [] => Some []
  | j :: items' =>
      match d j, decode_items d items' with
      | Some v, Some vs => Some (v :: vs)
      | _, _ => None
      end
  end.

Definition Decode_list {a : Type} (d : Decoder a) : Decoder (list a) :=
  fun j => match j with JArray items => decode_items d items | _ => None end.

Definition Decode_map2 {a b c : Type} (f : a -> b -> c) (da : Decoder a) (db : Decoder b)
  : Decoder c :=
  fun j =>
    match da j, db j with
    | Some x, Some y => Some (f x y)
    | _, _ => None
    end.

(** MODEL *)

Record Model : Type :=
  { players : list string;
    playerName : string;
    gameId : Z;
    maxPoints : string;
    scores : list (string * Z);
    newScore : Z;
    error : option string }.

Definition initialModel : Model :=
  {| players := [];
     playerName := EmptyString;
     gameId := 0;
     maxPoints := EmptyString;
     scores := [];
     newScore := 0;
     error := None |}.

(** MESSAGES *)

Inductive Msg : Type :=
| SetPlayerName (name : string)
| AddPlayer
| CreateGame
| SetMaxPoints (points : string)
| FetchGamePlayers (id : Z)
| AddScore (score : Z)
| ReceivePlayers (result : Result Http_Error (list string))
| ReceiveGamePlayers (result : Result Http_Error (list (string * Z)))
| ReceiveGame (result : Result Http_Error Z)
| ReceiveError (message : string).

(** A command: none, or one HTTP request with what turns its response into
    a message. *)
Inductive Cmd : Type :=
| Cmd_none
| Http_request (method url : string) (body : option json)
    (expect : Http_Response -> Msg).

(** [Http.expectJson] and [Http.expectString]: a response with a status
    outside 200..299 is [BadStatus]; [expectJson] decodes the body of a good
    one, and a body the decoder refuses is [BadBody]. *)
Definition expectJson {a : Type} (toMsg : Result Http_Error a -> Msg) (decoder : Decoder a)
  : Http_Response -> Msg :=
  fun response =>
    toMsg
      match response with
      | BadUrl_ url => Err (BadUrl url)
      | Timeout_ => Err Timeout
      | NetworkError_ => Err NetworkError
      | BadStatus_ statusCode _ => Err (BadStatus statusCode)
      | GoodStatus_ _ body =>
          match body with
          | Some j =>
              match decoder j with
              | Some v => Ok v
              | None => Err BadBody
              end
          | None => Err BadBody
          end
      end.

Definition expectString (toMsg : Result Http_Error (option json) -> Msg)
  : Http_Response -> Msg :=
  fun response =>
    toMsg
      match response with
      | BadUrl_ url => Err (BadUrl url)
      | Timeout_ => Err Timeout
      | NetworkError_ => Err NetworkError
      | BadStatus_ statusCode _ => Err (BadStatus statusCode)
      | GoodStatus_ _ body => Ok body
      end.

Definition Http_post (url : string) (body : json) (expect : Http_Response -> Msg) : Cmd :=
  Http_request "POST" url (Some body) expect.

Definition Http_get (url : string) (expect : Http_Response -> Msg) : Cmd :=
  Http_request "GET" url None expect.

(** DECODERS *)

Definition playerDecoder : Decoder (list string) :=
  Decode_list (Decode_field "name" Decode_string).

Definition gameDecoder : Decoder Z :=
  Decode_field "id" Decode_int.

Definition gamePlayersDecoder : Decoder (list (string * Z)) :=
  Decode_list
    (Decode_map2 pair
       (Decode_field "player_name" Decode_string)
       (Decode_field "score" Decode_int)).

(** UPDATE *)

Definition setPlayerName (name : string) (model : Model) : Model * Cmd :=
  ({| players := players model; playerName := name; gameId := gameId model;
      maxPoints := maxPoints model; scores := scores model;
      newScore := newScore model; error := error model |}, Cmd_none).

Definition with_error (message : string) (model : Model) : Model :=
  {| players := players model; playerName := playerName model; gameId := gameId model;
     maxPoints := maxPoints model; scores := scores model;
     newScore := newScore model; error := Some message |}.

Definition addPlayer (model : Model) : Model * Cmd :=
  let body := JObject [("name", JString (playerName model))] in
  (model,
   Http_post "http://localhost:8080/players/add" body
     (expectJson ReceivePlayers playerDecoder)).

Definition setMaxPoints (points : string) (model : Model) : Model * Cmd :=
  ({| players := players model; playerName := playerName model; gameId := gameId model;
      maxPoints := points; scores := scores model;
      newScore := newScore model; error := error model |}, Cmd_none).

Definition createGame `{ElmString} (model : Model) : Model * Cmd :=
  match String_toInt (maxPoints model) with
  | Some points =>
      let body := JObject [("max_points", JNumber points)] in
      (model,
       Http_post "http://localhost:8080/games/new" body
         (expectJson ReceiveGame gameDecoder))
  | None => (with_error "invalid max points" model, Cmd_none)
  end.

Definition fetchGamePlayers `{ElmString} (model : Model) : Model * Cmd :=
  let url :=
    ("http://localhost:8080/games?game_id=" ++ String_fromInt (gameId model))%string in
  (model, Http_get url (expectJson ReceiveGamePlayers gamePlayersDecoder)).

Definition addScore (score : Z) (model : Model) : Model * Cmd :=
  let body :=
    JObject [("game_id", JNumber (gameId model));
             ("player_id", JNumber 1);
             ("score", JNumber score)] in
  (model,
   Http_request "PUT" "http://localhost:8080/games/update-score" (Some body)
     (expectString (fun _ => ReceiveError "Failed to update score"))).

Definition update `{ElmString} (msg : Msg) (model : Model) : Model * Cmd :=
  match msg with
  | SetPlayerName name => setPlayerName name model
  | AddPlayer => addPlayer model
  | CreateGame => createGame model
  | SetMaxPoints points => setMaxPoints points model
  | FetchGamePlayers _ => fetchGamePlayers model
  | AddScore score => addScore score model
  | ReceivePlayers result =>
      match result with
      | Ok newPlayers =>
          ({| players := players model ++ newPlayers; playerName := EmptyString;
              gameId := gameId model; maxPoints := maxPoints model;
              scores := scores model; newScore := newScore model;
              error := error model |}, Cmd_none)
      | Err _ => (with_error "Failed to add player." model, Cmd_none)
      end
  | ReceiveGamePlayers result =>
      match result with
      | Ok playerScores =>
          ({| players := players model; playerName := playerName model;
              gameId := gameId model; maxPoints := maxPoints model;
              scores := playerScores; newScore := newScore model;
              error := error model |}, Cmd_none)
      | Err _ => (with_error "Failed to fetch game players." model, Cmd_none)
      end
  | ReceiveGame result =>
      match result with
      | Ok gameId' =>
          ({| players := players model; playerName := playerName model;
              gameId := gameId'; maxPoints := maxPoints model;
              scores := scores model; newScore := newScore model;
              error := error model |}, Cmd_none)
      | Err _ => (with_error "Failed to create game." model, Cmd_none)
      end
  | ReceiveError message => (with_error message model, Cmd_none)
  end.

(** The messages the page can send by itself: all but the [Receive] ones,
    which only a response brings. *)
Definition from_page (msg : Msg) : bool :=
  match msg with
  | SetPlayerName _ | AddPlayer | CreateGame | SetMaxPoints _
  | FetchGamePlayers _ | AddScore _ => true
  | _ => false
  end.

(** The model after a run of messages. *)
Fixpoint run `{ElmString} (model : Model) (msgs : list Msg) : Model :=
  match msgs with
  | [] => model
  | msg :: msgs' => run (fst (update msg model)) msgs'
  end.

End Client.

(** What the browser hands to the client for a reply of the server. *)
Definition wire (reply : Reply) : Client.Http_Response :=
  if (200 <=? Status reply) && (Status reply <? 300)
  then Client.GoodStatus_ (Status reply) (encode (Body reply))
  else Client.BadStatus_ (Status reply) (encode (Body reply)).

(** What can come back for a request sent to the server: one of its
    replies, or a failure on the way. *)
Inductive from_server : Client.Http_Response -> Prop :=
| from_server_reply : forall reply, from_server (wire reply)
| from_server_timeout : from_server Client.Timeout_
| from_server_network : from_server Client.NetworkError_
| from_server_url : forall url, from_server (Client.BadUrl_ url).

Definition pending_of (c : Client.Cmd) : list (Client.Http_Response -> Client.Msg) :=
  match c with
  | Client.Cmd_none => []
  | Client.Http_request _ _ _ expect => [expect]
  end.

(** A session of the client with the server: the page sends messages, the
    requests they start wait for their responses, and a response that
    arrives is turned into a message by the request it answers.  (A request
    stays in the list when it is answered, which only adds sessions.) *)
Inductive session `{ElmString}
  : Client.Model -> list (Client.Http_Response -> Client.Msg) -> Prop :=
| session_init : session Client.initialModel []
| session_page : forall model waiting msg,
    session model waiting ->
    Client.from_page msg = true ->
    session (fst (Client.update msg model))
            (pending_of (snd (Client.update msg model)) ++ waiting)
| session_response : forall model waiting expect response,
    session model waiting ->
    In expect waiting ->
    from_server response ->
    session (fst (Client.update (expect response) model))
            (pending_of (snd (Client.update (expect response) model)) ++ waiting).

(** A request whose response cannot change the lists of the client. *)
Definition harmless `{ElmString} (expect : Client.Http_Response -> Client.Msg) : Prop :=
  forall response m,
    from_server response ->
    Client.players (fst (Client.update (expect response) m)) = Client.players m
    /\ Client.scores (fst (Client.update (expect response) m)) = Client.scores m
    /\ snd (Client.update (expect response) m) = Client.Cmd_none.

(** An [ElmString] for evaluation: decimal digits with an optional sign,
    exact as long as the number is below 2^53. *)
Definition elm_toInt (s : string) : option Z :=
  match s with
  | EmptyString => None
  | String "+" EmptyString => None
  | String "-" EmptyString => None
  | String "+" s' => digits_value s' 0
  | String "-" s' => option_map Z.opp (digits_value s' 0)
  | _ => digits_value s 0
  end.

Definition decimal_strings : ElmString :=
  {| String_toInt := elm_toInt;
     String_fromInt := fun z => NilZero.string_of_int (Z.to_int z) |}.

(** More sample states: the same attachments without players and games;
    Bob at the largest [int]; Alice at 120. *)
Definition attachments_only : DB :=
  {| players := []; games := []; game_players := game_players alice_and_bob |}.

Definition bob_at_the_top : DB :=
  fst (@ApplyScoreDelta decimal_text alice_and_bob 1 2 GoInt.max_int).

Definition alice_at_120 : DB :=
  @run decimal_text alice_and_bob [delta_request 1 1 120].

Definition get_with_name (n : string) : Request :=
  {| Method := MethodGet; Query_game_id := EmptyString;
     Json := Some {| name := n; max_points := 0; game_id := 0; player_id := 0;
                     score := 0 |} |}.

Definition page_with_ceiling (points : string) : Client.Model :=
  {| Client.players := []; Client.playerName := EmptyString; Client.gameId := 0;
     Client.maxPoints := points; Client.scores := []; Client.newScore := 0;
     Client.error := None |}.

(* ================================================================= *)
(** * Properties *)

(** ** The engine's statements *)

Lemma DB_eta (d : DB) :
  {| players := players d; games := games d; game_players := game_players d |} = d.
Proof. destruct d; reflexivity. Qed.

Lemma decode_some (z v : Z) :
  GoInt.decode z = Some v -> v = z /\ GoInt.in_range z = true.
Proof.
  unfold GoInt.decode. destruct (GoInt.in_range z); intros E; inversion E; auto.
Qed.

Lemma decode_in_range (z : Z) : GoInt.in_range z = true -> GoInt.decode z = Some z.
Proof. unfold GoInt.decode. intros ->. reflexivity. Qed.

Lemma same_pair_bump (g p delta g' p' : Z) (r : GamePlayerRow) :
  same_pair g p (bump delta g' p' r) = same_pair g p r.
Proof. unfold bump. destruct (same_pair g' p' r); reflexivity. Qed.

Lemma pair_of_bump (delta g p : Z) (r : GamePlayerRow) :
  pair_of (bump delta g p r) = pair_of r.
Proof. unfold bump. destruct (same_pair g p r); reflexivity. Qed.

Lemma same_pair_true (g p : Z) (r : GamePlayerRow) :
  same_pair g p r = true <-> pair_of r = (p, g).
Proof.
  unfold same_pair, pair_of. rewrite andb_true_iff, !Z.eqb_eq.
  split; [intros [-> ->]; reflexivity | intros E; inversion E; auto].
Qed.

Lemma existsb_same_pair (g p : Z) (l : list GamePlayerRow) :
  existsb (same_pair g p) l = true <-> In (p, g) (map pair_of l).
Proof.
  rewrite existsb_exists, in_map_iff. split.
  - intros [r [Hin Hr]]. exists r. split; [apply same_pair_true; exact Hr | exact Hin].
  - intros [r [Hr Hin]]. exists r. split; [exact Hin | apply same_pair_true; exact Hr].
Qed.

Lemma map_pair_of_bump (delta g p : Z) (l : list GamePlayerRow) :
  map pair_of (map (bump delta g p) l) = map pair_of l.
Proof.
  rewrite map_map. apply map_ext. intros r. apply pair_of_bump.
Qed.

Lemma existsb_bump (g p delta g' p' : Z) (l : list GamePlayerRow) :
  existsb (same_pair g p) (map (bump delta g' p') l) = existsb (same_pair g p) l.
Proof.
  induction l as [|r l IH]; simpl; [reflexivity|].
  rewrite same_pair_bump, IH. reflexivity.
Qed.

Lemma find_bump (g p delta g' p' : Z) (l : list GamePlayerRow) :
  find (same_pair g p) (map (bump delta g' p') l)
  = option_map (bump delta g' p') (find (same_pair g p) l).
Proof.
  induction l as [|r l IH]; simpl; [reflexivity|].
  rewrite same_pair_bump. destruct (same_pair g p r); [reflexivity | exact IH].
Qed.

(** An UPDATE whose WHERE clause matches no row changes nothing. *)
Lemma map_bump_absent (delta g p : Z) (l : list GamePlayerRow) :
  existsb (same_pair g p) l = false -> map (bump delta g p) l = l.
Proof.
  induction l as [|r l IH]; simpl; [reflexivity|].
  intros E. apply orb_false_iff in E. destruct E as [Er El].
  unfold bump at 1. rewrite Er, (IH El). reflexivity.
Qed.

Lemma find_absent (g p : Z) (l : list GamePlayerRow) :
  existsb (same_pair g p) l = false -> find (same_pair g p) l = None.
Proof.
  induction l as [|r l IH]; simpl; [reflexivity|].
  intros E. apply orb_false_iff in E. destruct E as [Er El].
  rewrite Er. exact (IH El).
Qed.

Lemma find_present (g p : Z) (l : list GamePlayerRow) :
  existsb (same_pair g p) l = true ->
  exists r, find (same_pair g p) l = Some r /\ same_pair g p r = true.
Proof.
  induction l as [|r l IH]; simpl; [discriminate|].
  destruct (same_pair g p r) eqn:Er.
  - intros _. exists r. auto.
  - simpl. exact IH.
Qed.

(** The new rowid is larger than every rowid of the table. *)
Lemma next_rowid_above (ids : list Z) (i : Z) : In i ids -> i < next_rowid ids.
Proof.
  unfold next_rowid. induction ids as [|j ids IH]; cbn [fold_right In]; [tauto|].
  intros [-> | Hin]; [lia|]. specialize (IH Hin). lia.
Qed.

Lemma next_rowid_fresh (ids : list Z) : ~ In (next_rowid ids) ids.
Proof. intros Hin. apply next_rowid_above in Hin. lia. Qed.

Lemma next_rowid_positive (ids : list Z) : 0 < next_rowid ids.
Proof.
  unfold next_rowid. induction ids as [|j ids IH]; cbn [fold_right]; lia.
Qed.

(** With the foreign keys enforced, the INSERT into [game_players] would
    refuse a pair whose player or game is missing. *)
Lemma insert_game_player_enforced (d : DB) (p g : Z) :
  has_player d p && has_game d g = false ->
  exists e, insert_game_player {| foreign_keys := true |} d p g = Err e.
Proof.
  intros E. unfold insert_game_player.
  destruct (existsb (same_pair g p) (game_players d)); [eexists; reflexivity|].
  simpl. rewrite E. simpl. eexists; reflexivity.
Qed.

(** Sums of 64-bit integers that overflow, at the edges of the range: the
    REAL sum is one that integer affinity leaves a REAL. *)
Example overflow_sum_stays_real :
  forallb (fun ab =>
             match integer_affinity (real_add (real_of_int (fst ab)) (real_of_int (snd ab))) with
             | Real _ => true
             | _ => false
             end)
    [(GoInt.max_int, 1); (GoInt.max_int, GoInt.max_int); (2 ^ 62, 2 ^ 62);
     (2 ^ 62 + 511, 2 ^ 62 - 511); (2 ^ 63 - 600, 600); (2 ^ 63 - 512, 512);
     (GoInt.min_int, -1); (GoInt.min_int, GoInt.min_int); (- 2 ^ 62, - 2 ^ 62 - 1);
     (- 2 ^ 63 + 512, -513)] = true.
Proof. vm_compute. reflexivity. Qed.

(* ================================================================= *)
(** ** The handlers *)

Section HandlerFacts.

Context `{TextAffinity}.

Lemma serve_unfold (route : Route) (d : DB) (r : Request) :
  serve route d r =
  if (Method r =? MethodOptions)%string
  then (d, {| Status := StatusOK; Body := NoBody |})
  else mux route d r.
Proof. reflexivity. Qed.

(** What one request can do to [game_players]: nothing, one UPDATE of a
    score, or one INSERT of a pair that was not there. *)
Lemma serve_game_players (route : Route) (d : DB) (r : Request) :
  game_players (fst (serve route d r)) = game_players d
  \/ (exists g p delta,
         route = GamesUpdateScore
         /\ (Method r =? MethodPut)%string = true
         /\ decode_score_update r = Some (g, p, delta)
         /\ game_players (fst (serve route d r))
            = map (bump delta g p) (game_players d))
  \/ (exists g p,
         route = GamesPlayersAdd
         /\ (Method r =? MethodPost)%string = true
         /\ decode_pair r = Some (p, g)
         /\ existsb (same_pair g p) (game_players d) = false
         /\ game_players (fst (serve route d r))
            = game_players d ++ [new_row (game_players d) g p]).
Proof.
  rewrite serve_unfold.
  destruct (Method r =? MethodOptions)%string; [left; reflexivity|].
  destruct route; cbn [mux].
  - left; reflexivity.
  - unfold handle_games_new.
    destruct (negb _); [left; reflexivity|].
    destruct (decode_max_points r); left; reflexivity.
  - unfold handle_games.
    destruct (negb _); [left; reflexivity|].
    destruct (scan_rows _); left; reflexivity.
  - unfold handle_games_update_score.
    destruct (Method r =? MethodPut)%string eqn:M; cbn [negb]; [|left; reflexivity].
    destruct (decode_score_update r) as [[[g p] delta]|] eqn:E; [|left; reflexivity].
    right; left. exists g, p, delta. repeat (split; [reflexivity|]).
    unfold update_score. destruct (select_score _ g p); reflexivity.
  - unfold handle_games_players_add.
    destruct (Method r =? MethodPost)%string eqn:M; cbn [negb]; [|left; reflexivity].
    destruct (decode_pair r) as [[p g]|] eqn:E; [|left; reflexivity].
    unfold insert_game_player.
    destruct (existsb (same_pair g p) (game_players d)) eqn:Ex; [left; reflexivity|].
    right; right. exists g, p. repeat split; try reflexivity. exact Ex.
  - unfold handle_players_add.
    destruct (negb _); [left; reflexivity|].
    destruct (decode_name r) as [n|]; [|left; reflexivity].
    destruct (n =? EmptyString)%string; left; reflexivity.
Qed.

Lemma decode_pair_in_range (r : Request) (p g : Z) :
  decode_pair r = Some (p, g) ->
  GoInt.in_range g = true /\ GoInt.in_range p = true.
Proof.
  unfold decode_pair. destruct (Json r) as [f|]; [|discriminate].
  destruct (GoInt.decode (player_id f)) as [p'|] eqn:Ep; [|discriminate].
  destruct (GoInt.decode (game_id f)) as [g'|] eqn:Eg; [|discriminate].
  intros E. inversion E; subst.
  apply decode_some in Ep. apply decode_some in Eg.
  destruct Ep as [-> Hp], Eg as [-> Hg]. auto.
Qed.

(** A pair, once attached, stays attached. *)
Lemma attached_serve (route : Route) (d : DB) (r : Request) (g p : Z) :
  attached d g p = true -> attached (fst (serve route d r)) g p = true.
Proof.
  unfold attached. intros A.
  destruct (serve_game_players route d r)
    as [E | [(g' & p' & delta & _ & _ & _ & E) | (g' & p' & _ & _ & _ & _ & E)]];
    rewrite E.
  - exact A.
  - rewrite existsb_bump. exact A.
  - rewrite existsb_app, A. reflexivity.
Qed.

Lemma attached_run (reqs : list (Route * Request)) (d : DB) (g p : Z) :
  attached d g p = true -> attached (run d reqs) g p = true.
Proof.
  revert d. induction reqs as [|[route r] reqs IH]; intros d A; cbn [run].
  - exact A.
  - apply IH, attached_serve, A.
Qed.

(** A pair that no request asks to attach stays unattached. *)
Lemma unattached_serve (route : Route) (d : DB) (r : Request) (g p : Z) :
  attaches_pair g p (route, r) = false ->
  attached d g p = false -> attached (fst (serve route d r)) g p = false.
Proof.
  unfold attached, attaches_pair. cbn [fst snd]. intros N A.
  destruct (serve_game_players route d r)
    as [E | [(g' & p' & delta & _ & _ & _ & E) | (g' & p' & -> & M & D & _ & E)]];
    rewrite E.
  - exact A.
  - rewrite existsb_bump. exact A.
  - rewrite D, M in N. rewrite existsb_app, A.
    cbn [existsb orb new_row]. unfold same_pair. cbn [gp_game_id gp_player_id new_row].
    cbn [andb] in N. rewrite N. reflexivity.
Qed.

Lemma unattached_run (reqs : list (Route * Request)) (d : DB) (g p : Z) :
  forallb (fun q => negb (attaches_pair g p q)) reqs = true ->
  attached d g p = false -> attached (run d reqs) g p = false.
Proof.
  revert d. induction reqs as [|[route r] reqs IH]; intros d N A; cbn [run].
  - exact A.
  - cbn [forallb] in N. apply andb_true_iff in N. destruct N as [N1 N2].
    apply (IH _ N2). apply unattached_serve; [|exact A].
    apply negb_true_iff. exact N1.
Qed.

(** *** The operations, unfolded *)

Lemma AttachPlayer_eq (d : DB) (g p : Z) :
  GoInt.in_range g = true -> GoInt.in_range p = true ->
  AttachPlayer d g p =
  match insert_game_player db d p g with
  | Err _ => (d, respondWithError 500)
  | Ok (d', id) =>
      (d', {| Status := StatusCreated; Body := Created id "game_player_created" true |})
  end.
Proof.
  intros Hg Hp. unfold AttachPlayer. rewrite serve_unfold.
  cbn [mux request Method]. unfold handle_games_players_add, decode_pair.
  cbn [request Method Json player_id game_id].
  rewrite (decode_in_range _ Hg), (decode_in_range _ Hp). reflexivity.
Qed.

Lemma ApplyScoreDelta_eq (d : DB) (g p delta : Z) :
  GoInt.in_range g = true -> GoInt.in_range p = true -> GoInt.in_range delta = true ->
  ApplyScoreDelta d g p delta =
  let d' := {| players := players d; games := games d;
               game_players := map (bump delta g p) (game_players d) |} in
  match select_score d' g p with
  | Err _ => (d', respondWithError 500)
  | Ok n => (d', {| Status := StatusCreated; Body := Updated n "game_updated" true |})
  end.
Proof.
  intros Hg Hp Hd. unfold ApplyScoreDelta. rewrite serve_unfold.
  cbn [mux request Method]. unfold handle_games_update_score, decode_score_update.
  cbn [request Method Json player_id game_id score].
  rewrite (decode_in_range _ Hg), (decode_in_range _ Hp), (decode_in_range _ Hd).
  reflexivity.
Qed.

(** A delta or an id that is no [int] never reaches the store. *)
Lemma ApplyScoreDelta_not_int (d : DB) (g p delta : Z) :
  GoInt.in_range g && GoInt.in_range p && GoInt.in_range delta = false ->
  ApplyScoreDelta d g p delta = (d, invalid_json).
Proof.
  intros E. unfold ApplyScoreDelta. rewrite serve_unfold.
  cbn [mux request Method]. unfold handle_games_update_score, decode_score_update.
  cbn [request Method Json player_id game_id score]. unfold GoInt.decode.
  destruct (GoInt.in_range g); [|reflexivity].
  destruct (GoInt.in_range p); [|reflexivity].
  destruct (GoInt.in_range delta); [discriminate | reflexivity].
Qed.

Lemma ListScores_eq (d : DB) (id : string) :
  ListScores d id =
  match scan_rows (select_game_players d id) with
  | Err _ => (d, respondWithError 500)
  | Ok gamePlayers => (d, {| Status := StatusCreated; Body := Data gamePlayers |})
  end.
Proof. reflexivity. Qed.

(** *** The rows and their scores *)

Lemma find_app_some {A : Type} (f : A -> bool) (l l' : list A) (a : A) :
  find f l = Some a -> find f (l ++ l') = Some a.
Proof.
  induction l as [|x l IH]; cbn [find app]; [discriminate|].
  destruct (f x); [trivial | exact IH].
Qed.

Lemma score_of_some (d : DB) (g p : Z) (v : value) :
  score_of d g p = Some v ->
  exists r, find (same_pair g p) (game_players d) = Some r
            /\ In r (game_players d) /\ same_pair g p r = true /\ gp_score r = v.
Proof.
  unfold score_of. destruct (find _ _) as [r|] eqn:F; [|discriminate].
  cbn. intros E. inversion E; subst. exists r.
  apply find_some in F as F'. destruct F' as [Hin Hs]. auto.
Qed.

(** The UPDATE of a pair adds the delta to its score. *)
Lemma score_of_bump (d : DB) (g p delta : Z) :
  option_map gp_score (find (same_pair g p) (map (bump delta g p) (game_players d)))
  = option_map (fun v => add_int v delta) (score_of d g p).
Proof.
  unfold score_of. rewrite find_bump.
  destruct (find _ _) as [r|] eqn:F; [|reflexivity].
  apply find_some in F. destruct F as [_ Hs]. cbn.
  unfold bump. rewrite Hs. reflexivity.
Qed.

(** The UPDATE of another pair, and every other request, leaves it alone. *)
Lemma score_of_serve (route : Route) (d : DB) (r : Request) (g p : Z) (v : value) :
  updates_pair g p (route, r) = false ->
  score_of d g p = Some v -> score_of (fst (serve route d r)) g p = Some v.
Proof.
  intros N S. unfold score_of in *.
  destruct (find (same_pair g p) (game_players d)) as [x|] eqn:F; [|discriminate].
  destruct (serve_game_players route d r)
    as [E | [(g' & p' & delta & -> & M & D & E) | (g' & p' & _ & _ & _ & _ & E)]];
    rewrite E.
  - rewrite F. exact S.
  - rewrite find_bump, F. cbn [option_map] in *.
    unfold updates_pair in N. cbn [fst snd] in N. rewrite D, M in N. cbn [andb] in N.
    apply find_some in F. destruct F as [_ Hs].
    unfold bump. unfold same_pair in *.
    apply andb_true_iff in Hs. destruct Hs as [Hg Hp].
    apply Z.eqb_eq in Hg, Hp. rewrite Hg, Hp.
    rewrite (Z.eqb_sym g g'), (Z.eqb_sym p p'), N. exact S.
  - rewrite (find_app_some _ _ _ _ F). exact S.
Qed.

Lemma score_of_run (reqs : list (Route * Request)) (d : DB) (g p : Z) (v : value) :
  forallb (fun q => negb (updates_pair g p q)) reqs = true ->
  score_of d g p = Some v -> score_of (run d reqs) g p = Some v.
Proof.
  revert d. induction reqs as [|[route r] reqs IH]; intros d N S; cbn [run].
  - exact S.
  - cbn [forallb] in N. apply andb_true_iff in N. destruct N as [N1 N2].
    apply (IH _ N2). apply score_of_serve; [|exact S].
    apply negb_true_iff. exact N1.
Qed.

(** *** What holds in every state the server reaches *)

Lemma NoDup_snoc {A : Type} (l : list A) (a : A) :
  NoDup l -> ~ In a l -> NoDup (l ++ [a]).
Proof.
  intros Hl Ha. apply (NoDup_Add (a := a) (l := l)).
  - rewrite <- (app_nil_r l) at 1. apply Add_app.
  - split; assumption.
Qed.

Lemma keys_unique_serve (route : Route) (d : DB) (r : Request) :
  NoDup (map pair_of (game_players d)) ->
  NoDup (map pair_of (game_players (fst (serve route d r)))).
Proof.
  intros U.
  destruct (serve_game_players route d r)
    as [E | [(g & p & delta & _ & _ & _ & E) | (g & p & _ & _ & _ & A & E)]];
    rewrite E.
  - exact U.
  - rewrite map_pair_of_bump. exact U.
  - rewrite map_app. cbn [map]. apply NoDup_snoc; [exact U|].
    change (pair_of (new_row (game_players d) g p)) with (p, g).
    intros Hin. apply existsb_same_pair in Hin. congruence.
Qed.

Lemma reachable_keys_unique (d : DB) :
  reachable d -> NoDup (map pair_of (game_players d)).
Proof.
  induction 1 as [|d route r _ IH].
  - constructor.
  - apply keys_unique_serve, IH.
Qed.

Lemma key_in_range_bump (delta g p : Z) (r : GamePlayerRow) :
  key_in_range (bump delta g p r) = key_in_range r.
Proof. unfold bump. destruct (same_pair g p r); reflexivity. Qed.

Lemma keys_in_range_bump (delta g p : Z) (l : list GamePlayerRow) :
  forallb key_in_range (map (bump delta g p) l) = forallb key_in_range l.
Proof.
  induction l as [|x l IH]; cbn [map forallb]; [reflexivity|].
  rewrite key_in_range_bump, IH. reflexivity.
Qed.

Lemma reachable_keys_in_range (d : DB) :
  reachable d -> forallb key_in_range (game_players d) = true.
Proof.
  induction 1 as [|d route r _ IH].
  - reflexivity.
  - destruct (serve_game_players route d r)
      as [E | [(g & p & delta & _ & _ & _ & E) | (g & p & _ & _ & D & _ & E)]];
      rewrite E.
    + exact IH.
    + rewrite keys_in_range_bump. exact IH.
    + rewrite forallb_app, IH. cbn [forallb new_row andb].
      apply decode_pair_in_range in D. destruct D as [Hg Hp].
      unfold key_in_range. cbn [gp_game_id gp_player_id new_row]. rewrite Hg, Hp. reflexivity.
Qed.

Lemma reachable_run (reqs : list (Route * Request)) (d : DB) :
  reachable d -> reachable (run d reqs).
Proof.
  revert d. induction reqs as [|[route r] reqs IH]; intros d R; cbn [run].
  - exact R.
  - apply IH. constructor. exact R.
Qed.

Lemma reachable_pair_in_range (d : DB) (g p : Z) :
  reachable d -> attached d g p = true ->
  GoInt.in_range g = true /\ GoInt.in_range p = true.
Proof.
  intros R A. apply reachable_keys_in_range in R.
  unfold attached in A. apply existsb_exists in A. destruct A as [x [Hin Hs]].
  rewrite forallb_forall in R. specialize (R x Hin).
  unfold key_in_range in R. apply andb_true_iff in R. destruct R as [Rg Rp].
  unfold same_pair in Hs. apply andb_true_iff in Hs. destruct Hs as [Hg Hp].
  apply Z.eqb_eq in Hg, Hp. subst. auto.
Qed.

Lemma score_of_attached (d : DB) (g p : Z) (v : value) :
  score_of d g p = Some v -> attached d g p = true.
Proof.
  intros S. apply score_of_some in S. destruct S as (r & _ & Hin & Hs & _).
  unfold attached. apply existsb_exists. exists r. auto.
Qed.

End HandlerFacts.

(* ================================================================= *)
(** ** The operations of the specification *)

Section Claims.

Context `{TextAffinity}.

Lemma AttachPlayer_not_int (d : DB) (g p : Z) :
  GoInt.in_range g && GoInt.in_range p = false ->
  AttachPlayer d g p = (d, invalid_json).
Proof.
  intros E. unfold AttachPlayer. rewrite serve_unfold.
  cbn [mux request Method]. unfold handle_games_players_add, decode_pair.
  cbn [request Method Json player_id game_id]. unfold GoInt.decode.
  destruct (GoInt.in_range p); [|reflexivity].
  destruct (GoInt.in_range g); [|reflexivity].
  discriminate.
Qed.

Lemma AttachPlayer_success (d : DB) (g p : Z) :
  succeeded (snd (AttachPlayer d g p)) = true ->
  GoInt.in_range g = true /\ GoInt.in_range p = true
  /\ attached d g p = false
  /\ attached (fst (AttachPlayer d g p)) g p = true.
Proof.
  intros S.
  destruct (GoInt.in_range g) eqn:Hg;
    [|rewrite AttachPlayer_not_int in S by (rewrite Hg; reflexivity); discriminate].
  destruct (GoInt.in_range p) eqn:Hp;
    [|rewrite AttachPlayer_not_int in S by (rewrite Hg, Hp; reflexivity); discriminate].
  rewrite (AttachPlayer_eq d g p Hg Hp) in *.
  unfold insert_game_player, attached in *.
  destruct (existsb (same_pair g p) (game_players d)) eqn:Ex; [discriminate|].
  cbn [foreign_keys db andb fst game_players].
  repeat split. rewrite existsb_app. cbn [existsb]. unfold same_pair at 2.
  cbn [gp_game_id gp_player_id]. rewrite !Z.eqb_refl. cbn. apply orb_true_r.
Qed.

Lemma AttachPlayer_again (d : DB) (g p : Z) :
  GoInt.in_range g = true -> GoInt.in_range p = true ->
  attached d g p = true ->
  insert_game_player db d p g = Err ErrConstraintPrimaryKey
  /\ AttachPlayer d g p = (d, respondWithError 500).
Proof.
  intros Hg Hp A. rewrite (AttachPlayer_eq d g p Hg Hp).
  unfold insert_game_player. unfold attached in A. rewrite A. split; reflexivity.
Qed.

(** Attaching a pair that has no row succeeds, whether or not the game and
    the player exist. *)
Lemma AttachPlayer_new_pair (d : DB) (g p : Z) :
  GoInt.in_range g = true -> GoInt.in_range p = true ->
  attached d g p = false ->
  AttachPlayer d g p
  = ({| players := players d; games := games d;
        game_players := game_players d ++ [new_row (game_players d) g p] |},
     {| Status := StatusCreated;
        Body := Created (next_rowid (map gp_rowid (game_players d)))
                  "game_player_created" true |}).
Proof.
  intros Hg Hp A. rewrite (AttachPlayer_eq d g p Hg Hp).
  unfold insert_game_player. unfold attached in A. rewrite A. reflexivity.
Qed.

(** C1, as the code runs.  The connection does not enforce the FOREIGN KEY
    clauses of the schema: in a new database, which has no game 7 and no
    player 9, [AttachPlayer 7 9] is answered with status 201 and the row
    (game 7, player 9, score 0) is inserted. *)
Theorem attach_player_without_game_or_player :
  has_game initDB 7 = false
  /\ has_player initDB 9 = false
  /\ AttachPlayer initDB 7 9
     = ({| players := []; games := [];
           game_players := [{| gp_rowid := 1; gp_game_id := 7; gp_player_id := 9;
                               gp_score := Integer 0 |}] |},
        {| Status := StatusCreated; Body := Created 1 "game_player_created" true |}).
Proof. repeat split. Qed.

(** *** Sequences of deltas *)

Lemma fst_ApplyScoreDelta (d : DB) (g p delta : Z) :
  GoInt.in_range g = true -> GoInt.in_range p = true -> GoInt.in_range delta = true ->
  fst (ApplyScoreDelta d g p delta)
  = {| players := players d; games := games d;
       game_players := map (bump delta g p) (game_players d) |}.
Proof.
  intros Hg Hp Hd. rewrite (ApplyScoreDelta_eq d g p delta Hg Hp Hd). cbv zeta.
  destruct (select_score _ g p); reflexivity.
Qed.

Lemma score_of_ApplyScoreDelta (d : DB) (g p delta : Z) :
  GoInt.in_range g = true -> GoInt.in_range p = true -> GoInt.in_range delta = true ->
  score_of (fst (ApplyScoreDelta d g p delta)) g p
  = option_map (fun v => add_int v delta) (score_of d g p).
Proof.
  intros Hg Hp Hd. rewrite (fst_ApplyScoreDelta d g p delta Hg Hp Hd).
  unfold score_of at 1. cbn [game_players]. apply score_of_bump.
Qed.

Lemma apply_deltas_sum (deltas : list Z) :
  forall (d : DB) (g p a : Z),
    GoInt.in_range g = true -> GoInt.in_range p = true ->
    score_of d g p = Some (Integer a) ->
    within a deltas = true ->
    score_of (apply_deltas d g p deltas) g p = Some (Integer (a + sum deltas)).
Proof.
  induction deltas as [|delta deltas IH]; intros d g p a Hg Hp S W.
  - cbn [apply_deltas sum fold_right]. rewrite Z.add_0_r. exact S.
  - cbn [within] in W. apply andb_true_iff in W. destruct W as [W W3].
    apply andb_true_iff in W. destruct W as [W1 W2].
    cbn [apply_deltas]. rewrite (IH _ g p (a + delta) Hg Hp).
    + f_equal. f_equal. unfold sum. cbn [fold_right]. lia.
    + rewrite (score_of_ApplyScoreDelta d g p delta Hg Hp W1), S.
      cbn [option_map add_int]. rewrite W2. reflexivity.
    + exact W3.
Qed.

Lemma sum_permutation (l l' : list Z) : Permutation l l' -> sum l = sum l'.
Proof.
  unfold sum. induction 1; cbn [fold_right]; lia.
Qed.

(** C2, amended.  For a pair attached with score 0 and a sequence of
    deltas, each an [int], whose running totals all stay within the 64-bit
    range, the final score is the sum of the deltas; and every permutation
    of the sequence whose running totals stay within the range as well ends
    with the same score. *)
Theorem deltas_add_up (d : DB) (g p : Z) (deltas deltas' : list Z) :
  reachable d ->
  score_of d g p = Some (Integer 0) ->
  within 0 deltas = true ->
  score_of (apply_deltas d g p deltas) g p = Some (Integer (sum deltas))
  /\ (Permutation deltas deltas' ->
      within 0 deltas' = true ->
      score_of (apply_deltas d g p deltas') g p
      = score_of (apply_deltas d g p deltas) g p).
Proof.
  intros R S W.
  destruct (reachable_pair_in_range d g p R (score_of_attached _ _ _ _ S)) as [Hg Hp].
  split.
  - exact (apply_deltas_sum deltas d g p 0 Hg Hp S W).
  - intros P W'.
    rewrite (apply_deltas_sum deltas d g p 0 Hg Hp S W).
    rewrite (apply_deltas_sum deltas' d g p 0 Hg Hp S W').
    rewrite (sum_permutation _ _ P). reflexivity.
Qed.

(** C3.  In every state the server reaches, no two rows of [game_players]
    have the same (player_id, game_id); and after [AttachPlayer g p] has
    succeeded, whatever requests follow, a second [AttachPlayer g p] meets
    the primary key, is answered with the error response, and leaves the
    database as it was. *)
Theorem one_row_per_pair :
  (forall d : DB, reachable d -> NoDup (map pair_of (game_players d)))
  /\ (forall (d : DB) (g p : Z) (reqs : list (Route * Request)),
         succeeded (snd (AttachPlayer d g p)) = true ->
         let d' := run (fst (AttachPlayer d g p)) reqs in
         insert_game_player db d' p g = Err ErrConstraintPrimaryKey
         /\ AttachPlayer d' g p = (d', respondWithError 500)).
Proof.
  split.
  - exact reachable_keys_unique.
  - intros d g p reqs S d'.
    destruct (AttachPlayer_success d g p S) as (Hg & Hp & _ & A).
    apply (AttachPlayer_again d' g p Hg Hp).
    apply attached_run. exact A.
Qed.

(** C4.  For a pair that has no row, and after any requests none of which
    attaches it, [ApplyScoreDelta] leaves the database as it is and does not
    succeed; with ids and delta that are [int]s, the UPDATE matches nothing,
    the SELECT finds no row ([sql.ErrNoRows]), and the answer is the error
    response. *)
Theorem delta_on_unattached_pair
  (d : DB) (g p delta : Z) (reqs : list (Route * Request)) :
  attached d g p = false ->
  forallb (fun q => negb (attaches_pair g p q)) reqs = true ->
  let d' := run d reqs in
  fst (ApplyScoreDelta d' g p delta) = d'
  /\ succeeded (snd (ApplyScoreDelta d' g p delta)) = false
  /\ attached (fst (ApplyScoreDelta d' g p delta)) g p = false
  /\ (GoInt.in_range g && GoInt.in_range p && GoInt.in_range delta = true ->
      select_score d' g p = Err ErrNoRows
      /\ snd (ApplyScoreDelta d' g p delta) = respondWithError 500).
Proof.
  intros A N d'.
  assert (A' : attached d' g p = false) by (apply unattached_run; assumption).
  destruct (GoInt.in_range g && GoInt.in_range p && GoInt.in_range delta) eqn:E.
  - apply andb_true_iff in E. destruct E as [E Hd].
    apply andb_true_iff in E. destruct E as [Hg Hp].
    assert (F : select_score d' g p = Err ErrNoRows).
    { unfold select_score. unfold attached in A'. rewrite (find_absent _ _ _ A'). reflexivity. }
    rewrite (ApplyScoreDelta_eq d' g p delta Hg Hp Hd). cbv zeta.
    unfold attached in A'. rewrite (map_bump_absent _ _ _ _ A'), DB_eta, F.
    cbn [fst snd]. repeat split; try reflexivity. exact A'.
  - rewrite (ApplyScoreDelta_not_int d' g p delta E). cbn [fst snd].
    split; [reflexivity|]. split; [reflexivity|]. split; [exact A'|]. discriminate.
Qed.

(** *** Listings *)

Lemma scan_rows_reports (rows : list GamePlayerRow) :
  forall l, scan_rows rows = Ok l -> Forall2 reports rows l.
Proof.
  induction rows as [|r rows IH]; cbn [scan_rows]; intros l E.
  - inversion E. constructor.
  - destruct (gp_score r) as [|i|f] eqn:Sr; cbn [scan_int] in E; try discriminate.
    destruct (scan_rows rows) as [l'|e]; [|discriminate].
    inversion E; subst. constructor; [|apply IH; reflexivity].
    unfold reports. cbn. auto.
Qed.

Lemma scan_rows_integer (rows : list GamePlayerRow) :
  forallb integer_score rows = true -> exists l, scan_rows rows = Ok l.
Proof.
  induction rows as [|r rows IH]; cbn [scan_rows forallb]; intros E.
  - eexists; reflexivity.
  - apply andb_true_iff in E. destruct E as [Er El].
    unfold integer_score in Er. destruct (gp_score r); try discriminate.
    destruct (IH El) as [l ->]. cbn [scan_int]. eexists; reflexivity.
Qed.

Lemma reports_listed (rows : list GamePlayerRow) (l : list GamePlayer) :
  Forall2 reports rows l -> map listed l = map stored rows.
Proof.
  induction 1 as [|r x rows l (Hp & _ & Hs) _ IH]; cbn [map]; [reflexivity|].
  rewrite IH. unfold listed, stored. rewrite Hp, Hs. reflexivity.
Qed.

Lemma reports_in_row (rows : list GamePlayerRow) (l : list GamePlayer) (r : GamePlayerRow) :
  Forall2 reports rows l -> In r rows -> exists x, In x l /\ reports r x.
Proof.
  induction 1 as [|r' x rows l R _ IH]; cbn [In]; [tauto|].
  intros [-> | Hin].
  - exists x. auto.
  - destruct (IH Hin) as [y [Hy Ry]]. exists y. auto.
Qed.

Lemma reports_in_entry (rows : list GamePlayerRow) (l : list GamePlayer) (x : GamePlayer) :
  Forall2 reports rows l -> In x l -> exists r, In r rows /\ reports r x.
Proof.
  induction 1 as [|r x' rows l R _ IH]; cbn [In]; [tauto|].
  intros [-> | Hin].
  - exists r. auto.
  - destruct (IH Hin) as [y [Hy Ry]]. exists y. auto.
Qed.

Lemma unique_key_row {A B : Type} (f : A -> B) (l : list A) (a b : A) :
  NoDup (map f l) -> In a l -> In b l -> f a = f b -> a = b.
Proof.
  induction l as [|x l IH]; cbn [map In]; [tauto|].
  intros U Ha Hb E. inversion U as [|? ? Hx Ul]; subst.
  destruct Ha as [-> | Ha], Hb as [-> | Hb].
  - reflexivity.
  - exfalso. apply Hx. rewrite E. apply in_map. exact Hb.
  - exfalso. apply Hx. rewrite <- E. apply in_map. exact Ha.
  - apply IH; assumption.
Qed.

Lemma ApplyScoreDelta_success (d : DB) (g p delta : Z) :
  succeeded (snd (ApplyScoreDelta d g p delta)) = true ->
  GoInt.in_range g = true /\ GoInt.in_range p = true /\ GoInt.in_range delta = true.
Proof.
  intros S.
  destruct (GoInt.in_range g && GoInt.in_range p && GoInt.in_range delta) eqn:E.
  - apply andb_true_iff in E. destruct E as [E Hd].
    apply andb_true_iff in E. destruct E as [Hg Hp]. auto.
  - rewrite (ApplyScoreDelta_not_int d g p delta E) in S. discriminate.
Qed.

(** C5, amended.  For a pair attached with the integer score [s], an
    [ApplyScoreDelta] that succeeds returns [s + delta] and stores it; the
    stored score stays until the next update of the pair; every later
    [ListScores] of the game that succeeds has one entry for the player,
    with this score; and [ListScores] succeeds when every score of the game
    is an integer. *)
Theorem delta_is_persisted
  (d : DB) (g p s delta : Z) (reqs : list (Route * Request)) (id : string) :
  reachable d ->
  score_of d g p = Some (Integer s) ->
  succeeded (snd (ApplyScoreDelta d g p delta)) = true ->
  forallb (fun q => negb (updates_pair g p q)) reqs = true ->
  text_as_integer id = Some g ->
  let d' := run (fst (ApplyScoreDelta d g p delta)) reqs in
  let entry := {| PlayerId := p; GameId := g; Score := s + delta |} in
  snd (ApplyScoreDelta d g p delta)
  = {| Status := StatusCreated; Body := Updated (s + delta) "game_updated" true |}
  /\ score_of d' g p = Some (Integer (s + delta))
  /\ (forall l, snd (ListScores d' id) = {| Status := StatusCreated; Body := Data l |} ->
        In entry l /\ forall x, In x l -> PlayerId x = p -> x = entry)
  /\ (forallb integer_score (select_game_players d' id) = true ->
        exists l, snd (ListScores d' id) = {| Status := StatusCreated; Body := Data l |}).
Proof.
  intros R S Su N T d' entry.
  destruct (ApplyScoreDelta_success d g p delta Su) as (Hg & Hp & Hd).
  assert (S1 : score_of (fst (ApplyScoreDelta d g p delta)) g p
               = Some (add_int (Integer s) delta)).
  { rewrite (score_of_ApplyScoreDelta d g p delta Hg Hp Hd), S. reflexivity. }
  assert (Sum : add_int (Integer s) delta = Integer (s + delta)
                /\ snd (ApplyScoreDelta d g p delta)
                   = {| Status := StatusCreated;
                        Body := Updated (s + delta) "game_updated" true |}).
  { rewrite (fst_ApplyScoreDelta d g p delta Hg Hp Hd) in S1.
    rewrite (ApplyScoreDelta_eq d g p delta Hg Hp Hd) in Su |- *. cbv zeta in Su |- *.
    unfold select_score in Su |- *. unfold score_of in S1.
    destruct (find (same_pair g p) _) as [r|]; [|discriminate].
    cbn [option_map] in S1. inversion S1 as [S2]. rewrite S2 in Su |- *.
    cbn [add_int] in Su |- *.
    destruct (GoInt.in_range (s + delta)); [|discriminate].
    split; reflexivity. }
  destruct Sum as [Sum Reply]. rewrite Sum in S1.
  assert (S' : score_of d' g p = Some (Integer (s + delta))).
  { apply score_of_run; assumption. }
  assert (R' : reachable d').
  { apply reachable_run. unfold ApplyScoreDelta. constructor. exact R. }
  split; [exact Reply|]. split; [exact S'|]. split.
  - intros l L. rewrite ListScores_eq in L.
    destruct (scan_rows (select_game_players d' id)) as [l'|e] eqn:Sc;
      cbn [snd] in L; [|discriminate].
    inversion L; subst l'. apply scan_rows_reports in Sc.
    destruct (score_of_some d' g p _ S') as (r0 & _ & Hin & Hs & Hv).
    pose proof Hs as Hk. unfold same_pair in Hk. apply andb_true_iff in Hk.
    destruct Hk as [Kg Kp]. apply Z.eqb_eq in Kg, Kp.
    assert (Hsel : In r0 (select_game_players d' id)).
    { unfold select_game_players. apply filter_In. split; [exact Hin|].
      unfold in_game. rewrite T. apply Z.eqb_eq. exact Kg. }
    assert (E0 : forall x, reports r0 x -> x = entry).
    { intros [xp xg xs] (A1 & A2 & A3). cbn in A1, A2, A3. unfold entry.
      rewrite Hv in A3. inversion A3. subst. reflexivity. }
    split.
    + destruct (reports_in_row _ _ _ Sc Hsel) as [x [Hx Rx]].
      rewrite <- (E0 x Rx). exact Hx.
    + intros x Hx Px. destruct (reports_in_entry _ _ _ Sc Hx) as [r [Hr Rr]].
      apply E0. replace r0 with r; [exact Rr|].
      unfold select_game_players in Hr. apply filter_In in Hr. destruct Hr as [Hr Gr].
      unfold in_game in Gr. rewrite T in Gr. apply Z.eqb_eq in Gr.
      apply (unique_key_row pair_of (game_players d')); try assumption.
      * apply reachable_keys_unique. exact R'.
      * destruct Rr as (A1 & _ & _). unfold pair_of. congruence.
  - intros I. rewrite ListScores_eq.
    destruct (scan_rows_integer _ I) as [l ->]. exists l. reflexivity.
Qed.

(** C6, amended.  [ListScores] of a game whose rows all hold integer scores
    succeeds, leaves the database as it is, and returns exactly the
    (player, score) pairs of the rows whose [game_id] is the one asked for,
    in storage order; the empty list, not an error, when there is no such
    row. *)
Theorem list_scores_of_game (d : DB) (id : string) :
  let rows :=
    filter (fun r => match text_as_integer id with
                     | Some g => gp_game_id r =? g
                     | None => false
                     end) (game_players d) in
  forallb integer_score rows = true ->
  exists l,
    ListScores d id = (d, {| Status := StatusCreated; Body := Data l |})
    /\ map listed l = map stored rows
    /\ (rows = [] -> l = []).
Proof.
  intros rows I.
  change rows with (select_game_players d id) in *.
  destruct (scan_rows_integer _ I) as [l Sc]. exists l.
  rewrite ListScores_eq, Sc. split; [reflexivity|].
  apply scan_rows_reports in Sc. split.
  - apply reports_listed. exact Sc.
  - intros E. rewrite E in Sc. inversion Sc. reflexivity.
Qed.

(** *** Players and games *)

(** C7, amended.  [RegisterPlayer] with the empty name is answered with the
    validation error and inserts nothing; with any other name, one of white
    space included, it appends a player of that name under an id no player
    had before, and returns that id. *)
Theorem register_player (d : DB) (n : string) :
  n <> EmptyString ->
  RegisterPlayer d EmptyString = (d, validation_error)
  /\ (let id := next_rowid (map pl_id (players d)) in
      RegisterPlayer d n
      = ({| players := players d ++ [{| pl_id := id; pl_name := n |}];
            games := games d;
            game_players := game_players d |},
         {| Status := StatusCreated; Body := Created id "user_created" true |})
      /\ ~ In id (map pl_id (players d))).
Proof.
  intros Hn. split; [reflexivity|]. cbv zeta. split.
  - unfold RegisterPlayer. rewrite serve_unfold.
    cbn [mux request Method]. unfold handle_players_add, decode_name.
    cbn [request Method Json name].
    apply String.eqb_neq in Hn. rewrite Hn. reflexivity.
  - apply next_rowid_fresh.
Qed.

(** C8.  [CreateGame] with any [int] as the ceiling, zero and negative ones
    included, succeeds: it appends a game with exactly that ceiling under an
    id no game had before, and returns that id. *)
Theorem create_game (d : DB) (scoreCeiling : Z) :
  GoInt.in_range scoreCeiling = true ->
  let id := next_rowid (map gm_id (games d)) in
  CreateGame d scoreCeiling
  = ({| players := players d;
        games := games d ++ [{| gm_id := id; gm_max_points := scoreCeiling |}];
        game_players := game_players d |},
     {| Status := StatusCreated; Body := Created id "game_created" true |})
  /\ ~ In id (map gm_id (games d)).
Proof.
  intros Hc. cbv zeta. split.
  - unfold CreateGame. rewrite serve_unfold.
    cbn [mux request Method]. unfold handle_games_new, decode_max_points.
    cbn [request Method Json max_points].
    rewrite (decode_in_range _ Hc). reflexivity.
  - apply next_rowid_fresh.
Qed.

(** *** The transport *)

(** C9, amended.  In [src/server/main.go] the handler of ["/"] answers every
    request, whatever its method and body, with status 200 and "all good";
    behind the middlewares this is the answer to every request that is not
    an OPTIONS request, and an OPTIONS request gets status 200 and no body
    from the CORS middleware. *)
Theorem health_endpoint (d : DB) (r : Request) :
  handle_root d r = (d, all_good)
  /\ ((Method r =? MethodOptions)%string = false -> serve Root d r = (d, all_good))
  /\ ((Method r =? MethodOptions)%string = true ->
      serve Root d r = (d, {| Status := StatusOK; Body := NoBody |})).
Proof.
  split; [reflexivity|].
  split; intros M; rewrite serve_unfold, M; reflexivity.
Qed.

(** C10.  A request with the wrong method for its route, with a body its
    route's decoder refuses, or registering the empty name, leaves the
    database exactly as it was, both at the handler and behind the
    middlewares; the handler answers [method_not_allowed], [invalid_json]
    and the validation error respectively. *)
Theorem rejected_request_keeps_store (route : Route) (d : DB) (r : Request) :
  wrong_method route r || malformed route r || empty_name route r = true ->
  fst (mux route d r) = d
  /\ fst (serve route d r) = d
  /\ succeeded (snd (mux route d r)) = false
  /\ (wrong_method route r = true -> snd (mux route d r) = method_not_allowed)
  /\ (wrong_method route r = false -> malformed route r = true ->
      snd (mux route d r) = invalid_json)
  /\ (wrong_method route r = false -> malformed route r = false ->
      snd (mux route d r) = validation_error).
Proof.
  intros Rej.
  assert (K : fst (mux route d r) = d
              /\ succeeded (snd (mux route d r)) = false
              /\ (wrong_method route r = true -> snd (mux route d r) = method_not_allowed)
              /\ (wrong_method route r = false -> malformed route r = true ->
                  snd (mux route d r) = invalid_json)
              /\ (wrong_method route r = false -> malformed route r = false ->
                  snd (mux route d r) = validation_error)).
  { unfold wrong_method, malformed, empty_name in *.
    destruct route; cbn [mux method_of] in *.
    - discriminate.
    - unfold handle_games_new.
      destruct (negb (Method r =? MethodPost)%string); cbn [orb] in Rej.
      + repeat split; intros; (reflexivity || discriminate).
      + destruct (decode_max_points r); [discriminate|].
        repeat split; intros; (reflexivity || discriminate).
    - unfold handle_games.
      destruct (negb (Method r =? MethodGet)%string); cbn [orb] in Rej.
      + repeat split; intros; (reflexivity || discriminate).
      + discriminate.
    - unfold handle_games_update_score.
      destruct (negb (Method r =? MethodPut)%string); cbn [orb] in Rej.
      + repeat split; intros; (reflexivity || discriminate).
      + destruct (decode_score_update r); [discriminate|].
        repeat split; intros; (reflexivity || discriminate).
    - unfold handle_games_players_add.
      destruct (negb (Method r =? MethodPost)%string); cbn [orb] in Rej.
      + repeat split; intros; (reflexivity || discriminate).
      + destruct (decode_pair r) as [[? ?]|]; [discriminate|].
        repeat split; intros; (reflexivity || discriminate).
    - unfold handle_players_add.
      destruct (negb (Method r =? MethodPost)%string); cbn [orb] in Rej.
      + repeat split; intros; (reflexivity || discriminate).
      + destruct (decode_name r) as [n|]; cbn [orb] in Rej.
        * rewrite Rej. repeat split; intros; (reflexivity || discriminate).
        * repeat split; intros; (reflexivity || discriminate). }
  destruct K as (K1 & K2 & K3 & K4 & K5).
  repeat split; try assumption.
  rewrite serve_unfold. destruct (Method r =? MethodOptions)%string; [reflexivity | exact K1].
Qed.

End Claims.

(* ================================================================= *)
(** ** The operations on the sample states *)

Lemma reachable_one_game : @reachable decimal_text one_game.
Proof. unfold one_game, CreateGame, RegisterPlayer. repeat constructor. Qed.

Lemma reachable_alice_and_bob : @reachable decimal_text alice_and_bob.
Proof.
  unfold alice_and_bob, AttachPlayer. do 2 apply reachable_serve.
  exact reachable_one_game.
Qed.

Lemma reachable_overflowed : @reachable decimal_text overflowed.
Proof.
  unfold overflowed. cbn [apply_deltas]. unfold ApplyScoreDelta.
  do 2 apply reachable_serve. exact reachable_alice_and_bob.
Qed.

(** C2: the deltas 120 and 30, in both orders. *)
Lemma deltas_add_up_witness :
  @reachable decimal_text alice_and_bob
  /\ score_of alice_and_bob 1 1 = Some (Integer 0)
  /\ within 0 [120; 30] = true
  /\ Permutation [120; 30] [30; 120]
  /\ within 0 [30; 120] = true
  /\ score_of (@apply_deltas decimal_text alice_and_bob 1 1 [120; 30]) 1 1
     = Some (Integer 150)
  /\ score_of (@apply_deltas decimal_text alice_and_bob 1 1 [30; 120]) 1 1
     = score_of (@apply_deltas decimal_text alice_and_bob 1 1 [120; 30]) 1 1.
Proof.
  pose proof (@deltas_add_up decimal_text alice_and_bob 1 1 [120; 30] [30; 120]
                reachable_alice_and_bob eq_refl eq_refl) as [A B].
  split; [exact reachable_alice_and_bob|].
  split; [reflexivity|]. split; [reflexivity|].
  split; [apply perm_swap|]. split; [reflexivity|].
  split; [exact A|]. apply B; [apply perm_swap | reflexivity].
Defined.

(** C2, as stated: the deltas 2^63-1, 1 and -1 add up to 2^63-1.  Applied in
    this order the second overflows, and the score ends as the REAL 2^63;
    applied as 1, -1, 2^63-1 it ends as the INTEGER 2^63-1. *)
Lemma deltas_past_the_range :
  score_of alice_and_bob 1 1 = Some (Integer 0)
  /\ Permutation [GoInt.max_int; 1; -1] [1; -1; GoInt.max_int]
  /\ score_of (@apply_deltas decimal_text alice_and_bob 1 1 [GoInt.max_int; 1; -1]) 1 1
     = Some (Real (real_of_int (2 ^ 63)))
  /\ score_of (@apply_deltas decimal_text alice_and_bob 1 1 [GoInt.max_int; 1; -1]) 1 1
     <> Some (Integer (sum [GoInt.max_int; 1; -1]))
  /\ score_of (@apply_deltas decimal_text alice_and_bob 1 1 [GoInt.max_int; 1; -1]) 1 1
     <> score_of (@apply_deltas decimal_text alice_and_bob 1 1 [1; -1; GoInt.max_int]) 1 1.
Proof.
  split; [reflexivity|].
  split; [exact (Permutation_cons_append [1; -1] GoInt.max_int)|].
  split; [vm_compute; reflexivity|].
  split; vm_compute; discriminate.
Qed.

(** C3: Alice is attached to the game, Bob is attached and scores, and
    Alice is attached again. *)
Lemma one_row_per_pair_witness :
  @reachable decimal_text alice_and_bob
  /\ NoDup (map pair_of (game_players alice_and_bob))
  /\ succeeded (snd (@AttachPlayer decimal_text one_game 1 1)) = true
  /\ (let d' := @run decimal_text (fst (@AttachPlayer decimal_text one_game 1 1))
                  [attach_request 1 2; delta_request 1 2 40] in
      insert_game_player db d' 1 1 = Err ErrConstraintPrimaryKey
      /\ @AttachPlayer decimal_text d' 1 1 = (d', respondWithError 500)).
Proof.
  pose proof (@one_row_per_pair decimal_text) as [U A].
  split; [exact reachable_alice_and_bob|].
  split; [exact (U alice_and_bob reachable_alice_and_bob)|].
  split; [reflexivity|].
  exact (A one_game 1 1 _ eq_refl).
Defined.

(** C4: player 3 was never attached to game 1. *)
Lemma delta_on_unattached_pair_witness :
  attached one_game 1 3 = false
  /\ (let reqs := [attach_request 1 1] in
      let d' := @run decimal_text one_game reqs in
      forallb (fun q => negb (attaches_pair 1 3 q)) reqs = true
      /\ fst (@ApplyScoreDelta decimal_text d' 1 3 30) = d'
      /\ succeeded (snd (@ApplyScoreDelta decimal_text d' 1 3 30)) = false
      /\ attached (fst (@ApplyScoreDelta decimal_text d' 1 3 30)) 1 3 = false
      /\ select_score d' 1 3 = Err ErrNoRows
      /\ snd (@ApplyScoreDelta decimal_text d' 1 3 30) = respondWithError 500).
Proof.
  split; [reflexivity|]. cbv zeta.
  split; [reflexivity|].
  pose proof (@delta_on_unattached_pair decimal_text one_game 1 3 30
                [attach_request 1 1] eq_refl eq_refl) as (A & B & C & D).
  split; [exact A|]. split; [exact B|]. split; [exact C|].
  exact (D eq_refl).
Defined.

(** C5: Alice scores 120, Bob scores 40, and the game is listed. *)
Lemma delta_is_persisted_witness :
  @reachable decimal_text alice_and_bob
  /\ score_of alice_and_bob 1 1 = Some (Integer 0)
  /\ succeeded (snd (@ApplyScoreDelta decimal_text alice_and_bob 1 1 120)) = true
  /\ (let reqs := [delta_request 1 2 40; (Games, get_request "1")] in
      let d' := @run decimal_text
                  (fst (@ApplyScoreDelta decimal_text alice_and_bob 1 1 120)) reqs in
      forallb (fun q => negb (updates_pair 1 1 q)) reqs = true
      /\ decimal_text "1" = Some 1
      /\ snd (@ApplyScoreDelta decimal_text alice_and_bob 1 1 120)
         = {| Status := StatusCreated; Body := Updated 120 "game_updated" true |}
      /\ score_of d' 1 1 = Some (Integer 120)
      /\ snd (@ListScores decimal_text d' "1")
         = {| Status := StatusCreated;
              Body := Data [{| PlayerId := 1; GameId := 1; Score := 120 |};
                            {| PlayerId := 2; GameId := 1; Score := 40 |}] |}
      /\ In {| PlayerId := 1; GameId := 1; Score := 120 |}
           [{| PlayerId := 1; GameId := 1; Score := 120 |};
            {| PlayerId := 2; GameId := 1; Score := 40 |}]).
Proof.
  split; [exact reachable_alice_and_bob|].
  split; [reflexivity|]. split; [reflexivity|]. cbv zeta.
  split; [reflexivity|]. split; [reflexivity|].
  pose proof (@delta_is_persisted decimal_text alice_and_bob 1 1 0 120
                [delta_request 1 2 40; (Games, get_request "1")] "1"
                reachable_alice_and_bob eq_refl eq_refl eq_refl eq_refl)
    as (A & B & C & _).
  split; [exact A|]. split; [exact B|]. split; [reflexivity|].
  exact (proj1 (C _ eq_refl)).
Defined.

(** C5, as stated: in [overflowed] Bob's score is a REAL.  Alice's delta
    succeeds and returns 5, and the listing of the game that follows is
    answered with the error response. *)
Lemma delta_then_failed_listing :
  @reachable decimal_text overflowed
  /\ score_of overflowed 1 1 = Some (Integer 0)
  /\ snd (@ApplyScoreDelta decimal_text overflowed 1 1 5)
     = {| Status := StatusCreated; Body := Updated 5 "game_updated" true |}
  /\ snd (@ListScores decimal_text (fst (@ApplyScoreDelta decimal_text overflowed 1 1 5)) "1")
     = respondWithError 500
  /\ forall l, snd (@ListScores decimal_text
                      (fst (@ApplyScoreDelta decimal_text overflowed 1 1 5)) "1")
               <> {| Status := StatusCreated; Body := Data l |}.
Proof.
  split; [exact reachable_overflowed|].
  split; [reflexivity|]. split; [vm_compute; reflexivity|].
  split; [vm_compute; reflexivity|].
  intros l. vm_compute. discriminate.
Qed.

(** C6: the two players of game 1, and a game without players. *)
Lemma list_scores_of_game_witness :
  forallb integer_score
    (filter (fun r => match decimal_text "1" with
                      | Some g => gp_game_id r =? g
                      | None => false
                      end) (game_players alice_and_bob)) = true
  /\ (exists l,
        @ListScores decimal_text alice_and_bob "1"
        = (alice_and_bob, {| Status := StatusCreated; Body := Data l |})
        /\ map listed l = [(1, Integer 0); (2, Integer 0)])
  /\ @ListScores decimal_text alice_and_bob "2"
     = (alice_and_bob, {| Status := StatusCreated; Body := Data [] |}).
Proof.
  split; [reflexivity|].
  destruct (@list_scores_of_game decimal_text alice_and_bob "1" eq_refl)
    as (l1 & E1 & M1 & _).
  destruct (@list_scores_of_game decimal_text alice_and_bob "2" eq_refl)
    as (l2 & E2 & _ & N2).
  split.
  - exists l1. split; [exact E1 | exact M1].
  - rewrite E2, (N2 eq_refl). reflexivity.
Defined.

(** C6, as stated: game 1 exists and has two players, Bob's score is a REAL,
    and the listing of the game is answered with the error response. *)
Lemma listing_after_overflow :
  @reachable decimal_text overflowed
  /\ has_game overflowed 1 = true
  /\ attached overflowed 1 1 = true
  /\ attached overflowed 1 2 = true
  /\ score_of overflowed 1 2 = Some (Real (real_of_int (2 ^ 63)))
  /\ @ListScores decimal_text overflowed "1" = (overflowed, respondWithError 500).
Proof.
  split; [exact reachable_overflowed|].
  repeat split; vm_compute; reflexivity.
Qed.

(** C7: Alice registers in a new database. *)
Lemma register_player_witness :
  "Alice" <> EmptyString
  /\ @RegisterPlayer decimal_text initDB EmptyString = (initDB, validation_error)
  /\ @RegisterPlayer decimal_text initDB "Alice"
     = ({| players := [{| pl_id := 1; pl_name := "Alice" |}]; games := [];
           game_players := [] |},
        {| Status := StatusCreated; Body := Created 1 "user_created" true |}).
Proof.
  assert (N : "Alice" <> EmptyString) by discriminate.
  destruct (@register_player decimal_text initDB "Alice" N) as (A & B & _).
  split; [exact N|]. split; [exact A | exact B].
Defined.

(** C7, as stated: the name of one space is blank, and is registered. *)
Lemma blank_name_is_registered :
  blank " " = true
  /\ @RegisterPlayer decimal_text initDB " "
     = ({| players := [{| pl_id := 1; pl_name := " " |}]; games := [];
           game_players := [] |},
        {| Status := StatusCreated; Body := Created 1 "user_created" true |}).
Proof. split; reflexivity. Qed.

(** C8: a game with a negative ceiling, after the one of the scenario. *)
Lemma create_game_witness :
  GoInt.in_range (-5) = true
  /\ @CreateGame decimal_text one_game (-5)
     = ({| players := players one_game;
           games := games one_game ++ [{| gm_id := 2; gm_max_points := -5 |}];
           game_players := game_players one_game |},
        {| Status := StatusCreated; Body := Created 2 "game_created" true |})
  /\ ~ In 2 (map gm_id (games one_game)).
Proof.
  split; [reflexivity|].
  exact (@create_game decimal_text one_game (-5) eq_refl).
Defined.

(** C9: a GET and an OPTIONS request to ["/"]. *)
Lemma health_endpoint_witness :
  (Method (get_request EmptyString) =? MethodOptions)%string = false
  /\ (Method options_request =? MethodOptions)%string = true
  /\ @serve decimal_text Root initDB (get_request EmptyString) = (initDB, all_good)
  /\ @serve decimal_text Root initDB options_request
     = (initDB, {| Status := StatusOK; Body := NoBody |}).
Proof.
  split; [reflexivity|]. split; [reflexivity|]. split.
  - exact (proj1 (proj2 (@health_endpoint decimal_text initDB (get_request EmptyString))) eq_refl).
  - exact (proj2 (proj2 (@health_endpoint decimal_text initDB options_request)) eq_refl).
Defined.

(** C9, as stated: the ["/"] handler of [src/main.go] answers with status
    201 and "Player created", and the server answers an OPTIONS request to
    ["/"] without a body. *)
Lemma health_endpoint_other_answers :
  snd (RootMain.handle_root initDB (get_request EmptyString))
  = {| Status := StatusCreated;
       Body := Plain {| Message := "Player created"; Success := true |} |}
  /\ snd (RootMain.handle_root initDB (get_request EmptyString)) <> all_good
  /\ snd (@serve decimal_text Root initDB options_request) <> all_good.
Proof.
  split; [reflexivity|]. split; vm_compute; discriminate.
Qed.

(** C10: a GET to ["/players/add"], a body of the wrong shape for
    ["/games/update-score"], and a registration of the empty name. *)
Lemma rejected_request_keeps_store_witness :
  wrong_method PlayersAdd (get_request EmptyString) = true
  /\ snd (@mux decimal_text PlayersAdd alice_and_bob (get_request EmptyString)) = method_not_allowed
  /\ fst (@serve decimal_text PlayersAdd alice_and_bob (get_request EmptyString)) = alice_and_bob
  /\ malformed GamesUpdateScore put_without_body = true
  /\ @mux decimal_text GamesUpdateScore alice_and_bob put_without_body
     = (alice_and_bob, invalid_json)
  /\ empty_name PlayersAdd (request MethodPost no_fields) = true
  /\ @mux decimal_text PlayersAdd alice_and_bob (request MethodPost no_fields)
     = (alice_and_bob, validation_error).
Proof.
  pose proof (@rejected_request_keeps_store decimal_text PlayersAdd alice_and_bob
                (get_request EmptyString) eq_refl) as (_ & A2 & _ & A4 & _).
  pose proof (@rejected_request_keeps_store decimal_text GamesUpdateScore alice_and_bob
                put_without_body eq_refl) as (B1 & _ & _ & _ & B5 & _).
  pose proof (@rejected_request_keeps_store decimal_text PlayersAdd alice_and_bob
                (request MethodPost no_fields) eq_refl) as (C1 & _ & _ & _ & _ & C6).
  split; [reflexivity|]. split; [exact (A4 eq_refl)|]. split; [exact A2|].
  split; [reflexivity|]. split.
  { rewrite (surjective_pairing (mux _ _ _)), B1, (B5 eq_refl eq_refl). reflexivity. }
  split; [reflexivity|].
  rewrite (surjective_pairing (mux _ _ _)), C1, (C6 eq_refl eq_refl). reflexivity.
Defined.

(* ================================================================= *)
(** * More of the server *)

Section ServerFacts.

Context `{TextAffinity}.

(** ** What one request does to the three tables *)

Lemma serve_cases (route : Route) (d : DB) (r : Request) :
  fst (serve route d r) = d
  \/ (exists n,
         route = PlayersAdd /\ Method r = MethodPost
         /\ decode_name r = Some n /\ n <> EmptyString
         /\ serve route d r
            = ({| players := players d ++
                    [{| pl_id := next_rowid (map pl_id (players d)); pl_name := n |}];
                  games := games d;
                  game_players := game_players d |},
               {| Status := StatusCreated;
                  Body := Created (next_rowid (map pl_id (players d))) "user_created" true |}))
  \/ (exists c,
         route = GamesNew /\ Method r = MethodPost
         /\ decode_max_points r = Some c
         /\ serve route d r
            = ({| players := players d;
                  games := games d ++
                    [{| gm_id := next_rowid (map gm_id (games d)); gm_max_points := c |}];
                  game_players := game_players d |},
               {| Status := StatusCreated;
                  Body := Created (next_rowid (map gm_id (games d))) "game_created" true |}))
  \/ (exists g p delta,
         route = GamesUpdateScore /\ Method r = MethodPut
         /\ decode_score_update r = Some (g, p, delta)
         /\ fst (serve route d r)
            = {| players := players d; games := games d;
                 game_players := map (bump delta g p) (game_players d) |})
  \/ (exists g p,
         route = GamesPlayersAdd /\ Method r = MethodPost
         /\ decode_pair r = Some (p, g)
         /\ attached d g p = false
         /\ serve route d r
            = ({| players := players d; games := games d;
                  game_players := game_players d ++ [new_row (game_players d) g p] |},
               {| Status := StatusCreated;
                  Body := Created (next_rowid (map gp_rowid (game_players d)))
                            "game_player_created" true |})).
Proof.
  rewrite serve_unfold.
  destruct (Method r =? MethodOptions)%string; [left; reflexivity|].
  destruct route; cbn [mux].
  - left; reflexivity.
  - unfold handle_games_new.
    destruct (Method r =? MethodPost)%string eqn:M; cbn [negb]; [|left; reflexivity].
    apply String.eqb_eq in M.
    destruct (decode_max_points r) as [c|] eqn:E; [|left; reflexivity].
    right; right; left. exists c. repeat (split; [reflexivity || assumption|]). reflexivity.
  - unfold handle_games.
    destruct (negb _); [left; reflexivity|].
    destruct (scan_rows _); left; reflexivity.
  - unfold handle_games_update_score.
    destruct (Method r =? MethodPut)%string eqn:M; cbn [negb]; [|left; reflexivity].
    apply String.eqb_eq in M.
    destruct (decode_score_update r) as [[[g p] delta]|] eqn:E; [|left; reflexivity].
    right; right; right; left. exists g, p, delta.
    repeat (split; [reflexivity || assumption|]).
    unfold update_score. destruct (select_score _ g p); reflexivity.
  - unfold handle_games_players_add.
    destruct (Method r =? MethodPost)%string eqn:M; cbn [negb]; [|left; reflexivity].
    apply String.eqb_eq in M.
    destruct (decode_pair r) as [[p g]|] eqn:E; [|left; reflexivity].
    unfold insert_game_player.
    destruct (existsb (same_pair g p) (game_players d)) eqn:Ex; [left; reflexivity|].
    right; right; right; right. exists g, p.
    repeat (split; [reflexivity || assumption|]). reflexivity.
  - unfold handle_players_add.
    destruct (Method r =? MethodPost)%string eqn:M; cbn [negb]; [|left; reflexivity].
    apply String.eqb_eq in M.
    destruct (decode_name r) as [n|] eqn:E; [|left; reflexivity].
    destruct (n =? EmptyString)%string eqn:N; [left; reflexivity|].
    apply String.eqb_neq in N.
    right; left. exists n. repeat (split; [reflexivity || assumption|]). reflexivity.
Qed.

Lemma map_ident_bump (delta g p : Z) (l : list GamePlayerRow) :
  map ident (map (bump delta g p) l) = map ident l.
Proof.
  rewrite map_map. apply map_ext. intros r. unfold bump.
  destruct (same_pair g p r); reflexivity.
Qed.

(** One request appends at most one row, to one table, and keeps what
    identifies the rows that are there. *)
Lemma serve_grows (route : Route) (d : DB) (r : Request) :
  exists ps gs ks,
    players (fst (serve route d r)) = players d ++ ps
    /\ games (fst (serve route d r)) = games d ++ gs
    /\ map ident (game_players (fst (serve route d r)))
       = map ident (game_players d) ++ ks
    /\ (List.length ps + List.length gs + List.length ks <= 1)%nat.
Proof.
  destruct (serve_cases route d r)
    as [E | [(n & _ & _ & _ & _ & E) | [(c & _ & _ & _ & E)
       | [(g & p & delta & _ & _ & _ & E) | (g & p & _ & _ & _ & _ & E)]]]];
    rewrite E; cbn [fst players games game_players].
  - exists [], [], []. rewrite ?app_nil_r. repeat split; try reflexivity; cbn [List.length]; lia.
  - exists [{| pl_id := next_rowid (map pl_id (players d)); pl_name := n |}], [], [].
    rewrite ?app_nil_r. repeat split; try reflexivity; cbn [List.length]; lia.
  - exists [], [{| gm_id := next_rowid (map gm_id (games d)); gm_max_points := c |}], [].
    rewrite ?app_nil_r. repeat split; try reflexivity; cbn [List.length]; lia.
  - exists [], [], []. rewrite ?app_nil_r, map_ident_bump. repeat split; try reflexivity; cbn [List.length]; lia.
  - exists [], [], [ident (new_row (game_players d) g p)].
    rewrite ?app_nil_r, map_app. repeat split; try reflexivity; cbn [List.length]; lia.
Qed.

Lemma run_keeps_rows (reqs : list (Route * Request)) (d : DB) :
  (forall x, In x (players d) -> In x (players (run d reqs)))
  /\ (forall x, In x (games d) -> In x (games (run d reqs))).
Proof.
  revert d. induction reqs as [|[route r] reqs IH]; intros d; cbn [run].
  - auto.
  - destruct (serve_grows route d r) as (ps & gs & _ & Ep & Eg & _).
    destruct (IH (fst (serve route d r))) as [Kp Kg].
    split; intros x Hx; [apply Kp; rewrite Ep | apply Kg; rewrite Eg];
      apply in_or_app; left; exact Hx.
Qed.

(** ** Ids *)

Lemma iota_S (n : nat) : iota (S n) = iota n ++ [Z.of_nat (S n)].
Proof. unfold iota. rewrite seq_S, map_app. reflexivity. Qed.

Lemma In_iota (n : nat) (i : Z) : In i (iota n) <-> 1 <= i <= Z.of_nat n.
Proof.
  unfold iota. rewrite in_map_iff. split.
  - intros [k [<- Hk]]. apply in_seq in Hk. lia.
  - intros Hi. exists (Z.to_nat i). split; [lia|]. apply in_seq. lia.
Qed.

Lemma next_rowid_at_most (ids : list Z) (m : Z) :
  0 <= m -> (forall i, In i ids -> i <= m) -> next_rowid ids <= m + 1.
Proof.
  unfold next_rowid. intros Hm. induction ids as [|j ids IH]; cbn [fold_right In]; intros B.
  - lia.
  - assert (j <= m) by (apply B; auto).
    assert (1 + fold_right Z.max 0 ids <= m + 1) by (apply IH; intros; apply B; auto).
    lia.
Qed.

Lemma next_rowid_iota (n : nat) : next_rowid (iota n) = Z.of_nat (S n).
Proof.
  assert (U : next_rowid (iota n) <= Z.of_nat n + 1).
  { apply next_rowid_at_most; [lia|]. intros i Hi. apply In_iota in Hi. lia. }
  destruct n as [|n]; [reflexivity|].
  assert (L : Z.of_nat (S n) < next_rowid (iota (S n))).
  { apply next_rowid_above. apply In_iota. lia. }
  lia.
Qed.

Lemma NoDup_iota (n : nat) : NoDup (iota n).
Proof.
  induction n as [|n IH]; [constructor|].
  rewrite iota_S. apply NoDup_snoc; [exact IH|].
  intros Hin. apply In_iota in Hin. lia.
Qed.

Lemma iota_snoc {A : Type} (f : A -> Z) (l : list A) (a : A) :
  map f l = iota (List.length l) ->
  f a = next_rowid (map f l) ->
  map f (l ++ [a]) = iota (List.length (l ++ [a])).
Proof.
  intros E Ea. rewrite map_app, length_app. cbn [map List.length].
  rewrite Nat.add_1_r, iota_S, Ea, E, next_rowid_iota. reflexivity.
Qed.

Lemma reachable_ids (d : DB) :
  reachable d ->
  map pl_id (players d) = iota (List.length (players d))
  /\ map gm_id (games d) = iota (List.length (games d))
  /\ map gp_rowid (game_players d) = iota (List.length (game_players d)).
Proof.
  induction 1 as [|d route r _ (Ip & Ig & Ik)]; [repeat split|].
  destruct (serve_cases route d r)
    as [E | [(n & _ & _ & _ & _ & E) | [(c & _ & _ & _ & E)
       | [(g & p & delta & _ & _ & _ & E) | (g & p & _ & _ & _ & _ & E)]]]];
    rewrite E; cbn [fst players games game_players].
  - auto.
  - split; [|auto]. apply iota_snoc; [exact Ip | reflexivity].
  - split; [exact Ip|]. split; [|exact Ik]. apply iota_snoc; [exact Ig | reflexivity].
  - split; [exact Ip|]. split; [exact Ig|].
    rewrite length_map. rewrite <- Ik. rewrite map_map. apply map_ext.
    intros x. unfold bump. destruct (same_pair g p x); reflexivity.
  - split; [exact Ip|]. split; [exact Ig|]. apply iota_snoc; [exact Ik | reflexivity].
Qed.

(** ** Scores *)

Lemma add_int_integer (v : value) (delta i : Z) :
  add_int v delta = Integer i -> GoInt.in_range i = true.
Proof.
  destruct v as [|a|f]; cbn [add_int].
  - discriminate.
  - destruct (GoInt.in_range (a + delta)) eqn:R; [|discriminate].
    intros E. inversion E; subst. exact R.
  - unfold integer_affinity.
    destruct (real_add f (real_of_int delta)); try discriminate;
      destruct (int_of_real _) as [ix|]; try discriminate;
      destruct ((GoInt.min_int <? ix) && (ix <? GoInt.max_int)) eqn:B; try discriminate;
      intros E; inversion E; subst;
      apply andb_true_iff in B; destruct B as [B1 B2];
      apply Z.ltb_lt in B1, B2; unfold GoInt.in_range;
      apply andb_true_iff; split; apply Z.leb_le; lia.
Qed.

(** An INTEGER score is an [int], in every state the server reaches. *)
Lemma reachable_integer_scores (d : DB) :
  reachable d ->
  forall r i, In r (game_players d) -> gp_score r = Integer i -> GoInt.in_range i = true.
Proof.
  induction 1 as [|d route r _ IH]; [intros ? ? []|].
  intros x i Hin Hs.
  destruct (serve_game_players route d r)
    as [E | [(g & p & delta & _ & _ & _ & E) | (g & p & _ & _ & _ & _ & E)]];
    rewrite E in Hin.
  - exact (IH x i Hin Hs).
  - apply in_map_iff in Hin. destruct Hin as [y [<- Hy]].
    unfold bump in Hs. destruct (same_pair g p y).
    + cbn [gp_score] in Hs. exact (add_int_integer _ _ _ Hs).
    + exact (IH y i Hy Hs).
  - apply in_app_or in Hin. destruct Hin as [Hin | [<- | []]].
    + exact (IH x i Hin Hs).
    + cbn in Hs. inversion Hs. reflexivity.
Qed.

(** ** The middlewares *)

(** X1.  [serverMiddlewares] wraps the handler in the middlewares from the
    first to the last: the last one listed is the outermost, and is the
    first to see a request.  In the server, a request passes [logRequest],
    then [corsMiddleware], then the mux. *)
Theorem middlewares_wrap_in_order
  (handler : DB -> Request -> DB * Reply)
  (middlewares : list ((DB -> Request -> DB * Reply) -> DB -> Request -> DB * Reply))
  (middleware : (DB -> Request -> DB * Reply) -> DB -> Request -> DB * Reply) :
  serverMiddlewares handler [] = handler
  /\ serverMiddlewares handler (middlewares ++ [middleware])
     = middleware (serverMiddlewares handler middlewares)
  /\ (forall route, serve route = logRequest (corsMiddleware (mux route))).
Proof.
  split; [reflexivity|]. split.
  - unfold serverMiddlewares. rewrite fold_left_app. reflexivity.
  - intros route. reflexivity.
Qed.

(** X2.  On every route, a request whose method is neither POST nor PUT
    leaves the database exactly as it was. *)
Theorem only_post_and_put_change_store (route : Route) (d : DB) (r : Request) :
  Method r <> MethodPost -> Method r <> MethodPut ->
  fst (serve route d r) = d.
Proof.
  intros NPost NPut.
  destruct (serve_cases route d r)
    as [E | [(n & _ & M & _) | [(c & _ & M & _)
       | [(g & p & delta & _ & M & _) | (g & p & _ & M & _)]]]];
    [exact E | | | |]; contradiction.
Qed.

(** ** The tables *)

(** X3.  No run of requests removes a player, a game or an attachment, or
    changes a rowid, game id or player id of [game_players]: the tables
    after the run are the tables before it, extended at the end, by at most
    one row per request. *)
Theorem tables_only_grow (d : DB) (reqs : list (Route * Request)) :
  exists ps gs ks,
    players (run d reqs) = players d ++ ps
    /\ games (run d reqs) = games d ++ gs
    /\ map ident (game_players (run d reqs)) = map ident (game_players d) ++ ks
    /\ (List.length ps + List.length gs + List.length ks <= List.length reqs)%nat.
Proof.
  revert d. induction reqs as [|[route r] reqs IH]; intros d; cbn [run].
  - exists [], [], []. rewrite ?app_nil_r. repeat split; try reflexivity; cbn [List.length]; lia.
  - destruct (serve_grows route d r) as (ps & gs & ks & Ep & Eg & Ek & L).
    destruct (IH (fst (serve route d r))) as (ps' & gs' & ks' & Ep' & Eg' & Ek' & L').
    exists (ps ++ ps'), (gs ++ gs'), (ks ++ ks').
    rewrite Ep', Eg', Ek', Ep, Eg, Ek, <- !app_assoc.
    repeat split; try reflexivity.
    rewrite !length_app. cbn [List.length]. lia.
Qed.

(** X4.  In every state the server reaches, the ids of the players, of the
    games and of the attachments count from 1 without a gap, in the order of
    insertion; so they are pairwise distinct, and the next player gets the
    number of players plus one. *)
Theorem ids_count_from_one (d : DB) :
  reachable d ->
  map pl_id (players d) = iota (List.length (players d))
  /\ map gm_id (games d) = iota (List.length (games d))
  /\ map gp_rowid (game_players d) = iota (List.length (game_players d))
  /\ NoDup (map pl_id (players d))
  /\ NoDup (map gm_id (games d))
  /\ next_rowid (map pl_id (players d)) = Z.of_nat (S (List.length (players d))).
Proof.
  intros R. destruct (reachable_ids d R) as (Ip & Ig & Ik).
  repeat split; try assumption.
  - rewrite Ip. apply NoDup_iota.
  - rewrite Ig. apply NoDup_iota.
  - rewrite Ip. apply next_rowid_iota.
Qed.

Lemma CreateGame_eq (d : DB) (c : Z) :
  GoInt.in_range c = true ->
  CreateGame d c
  = ({| players := players d;
        games := games d ++
          [{| gm_id := next_rowid (map gm_id (games d)); gm_max_points := c |}];
        game_players := game_players d |},
     {| Status := StatusCreated;
        Body := Created (next_rowid (map gm_id (games d))) "game_created" true |}).
Proof.
  intros Hc. unfold CreateGame. rewrite serve_unfold.
  cbn [mux request Method]. unfold handle_games_new, decode_max_points.
  cbn [request Method Json max_points]. rewrite (decode_in_range _ Hc). reflexivity.
Qed.

Lemma RegisterPlayer_eq (d : DB) (n : string) :
  n <> EmptyString ->
  RegisterPlayer d n
  = ({| players := players d ++
          [{| pl_id := next_rowid (map pl_id (players d)); pl_name := n |}];
        games := games d;
        game_players := game_players d |},
     {| Status := StatusCreated;
        Body := Created (next_rowid (map pl_id (players d))) "user_created" true |}).
Proof.
  intros Hn. unfold RegisterPlayer. rewrite serve_unfold.
  cbn [mux request Method]. unfold handle_players_add, decode_name.
  cbn [request Method Json name]. apply String.eqb_neq in Hn. rewrite Hn. reflexivity.
Qed.

(** X5.  The ceiling given to [CreateGame] is kept: after any run of
    requests, the game with the id that was answered is in the table with
    that ceiling, and no row with that id has another. *)
Theorem ceiling_is_kept (d : DB) (c : Z) (reqs : list (Route * Request)) :
  reachable d ->
  GoInt.in_range c = true ->
  let id := next_rowid (map gm_id (games d)) in
  let d' := run (fst (CreateGame d c)) reqs in
  snd (CreateGame d c) = {| Status := StatusCreated; Body := Created id "game_created" true |}
  /\ In {| gm_id := id; gm_max_points := c |} (games d')
  /\ forall row, In row (games d') -> gm_id row = id -> gm_max_points row = c.
Proof.
  intros R Hc id d'.
  assert (R' : reachable d').
  { apply reachable_run. unfold CreateGame. constructor. exact R. }
  assert (Hin : In {| gm_id := id; gm_max_points := c |} (games d')).
  { subst d'. apply (proj2 (run_keeps_rows reqs (fst (CreateGame d c)))).
    rewrite (CreateGame_eq d c Hc). cbn [fst games].
    apply in_or_app. right. left. reflexivity. }
  split; [rewrite (CreateGame_eq d c Hc); reflexivity|].
  split; [exact Hin|].
  intros row Hrow Hid.
  destruct (reachable_ids d' R') as (_ & Ig & _).
  assert (U : NoDup (map gm_id (games d'))) by (rewrite Ig; apply NoDup_iota).
  rewrite (unique_key_row gm_id (games d') row _ U Hrow Hin Hid). reflexivity.
Qed.

(** X6.  The name given to [RegisterPlayer] is kept: after any run of
    requests, the player with the id that was answered is in the table with
    that name, and no row with that id has another. *)
Theorem name_is_kept (d : DB) (n : string) (reqs : list (Route * Request)) :
  reachable d ->
  n <> EmptyString ->
  let id := next_rowid (map pl_id (players d)) in
  let d' := run (fst (RegisterPlayer d n)) reqs in
  snd (RegisterPlayer d n) = {| Status := StatusCreated; Body := Created id "user_created" true |}
  /\ In {| pl_id := id; pl_name := n |} (players d')
  /\ forall row, In row (players d') -> pl_id row = id -> pl_name row = n.
Proof.
  intros R Hn id d'.
  assert (R' : reachable d').
  { apply reachable_run. unfold RegisterPlayer. constructor. exact R. }
  assert (Hin : In {| pl_id := id; pl_name := n |} (players d')).
  { subst d'. apply (proj1 (run_keeps_rows reqs (fst (RegisterPlayer d n)))).
    rewrite (RegisterPlayer_eq d n Hn). cbn [fst players].
    apply in_or_app. right. left. reflexivity. }
  split; [rewrite (RegisterPlayer_eq d n Hn); reflexivity|].
  split; [exact Hin|].
  intros row Hrow Hid.
  destruct (reachable_ids d' R') as (Ip & _).
  assert (U : NoDup (map pl_id (players d'))) by (rewrite Ip; apply NoDup_iota).
  rewrite (unique_key_row pl_id (players d') row _ U Hrow Hin Hid). reflexivity.
Qed.

(** ** The score ledger *)

(** X7.  The handlers of ["/games"], ["/games/update-score"] and
    ["/games/players/add"] read nothing but [game_players]: in two databases
    with the same attachments they give the same response and leave the
    same attachments, whatever the players and the games (and their
    ceilings) are. *)
Theorem ledger_ignores_players_and_games (route : Route) (d1 d2 : DB) (r : Request) :
  ledger_route route = true ->
  game_players d1 = game_players d2 ->
  snd (serve route d1 r) = snd (serve route d2 r)
  /\ game_players (fst (serve route d1 r)) = game_players (fst (serve route d2 r)).
Proof.
  intros L E. rewrite !serve_unfold.
  destruct (Method r =? MethodOptions)%string; [split; [reflexivity | exact E]|].
  destruct route; try discriminate; cbn [mux].
  - unfold handle_games, select_game_players. rewrite E.
    destruct (negb _); [split; [reflexivity | exact E]|].
    destruct (scan_rows _); split; (reflexivity || exact E).
  - unfold handle_games_update_score, update_score, select_score.
    destruct (negb _); [split; [reflexivity | exact E]|].
    destruct (decode_score_update r) as [[[g p] delta]|]; [|split; [reflexivity | exact E]].
    cbn [game_players]. rewrite E.
    destruct (find _ _) as [x|]; [destruct (scan_int _)|]; split; reflexivity.
  - unfold handle_games_players_add, insert_game_player.
    destruct (negb _); [split; [reflexivity | exact E]|].
    destruct (decode_pair r) as [[p g]|]; [|split; [reflexivity | exact E]].
    rewrite E. cbn [foreign_keys db andb].
    destruct (existsb _ _); split; (reflexivity || exact E).
Qed.

Lemma other_pair (g p g' p' : Z) (x : GamePlayerRow) :
  (g', p') <> (g, p) -> same_pair g' p' x = true -> same_pair g p x = false.
Proof.
  unfold same_pair. intros N S. apply andb_true_iff in S. destruct S as [Sg Sp].
  apply Z.eqb_eq in Sg, Sp. subst.
  destruct (gp_game_id x =? g) eqn:Eg; [|reflexivity].
  destruct (gp_player_id x =? p) eqn:Ep; [|reflexivity].
  apply Z.eqb_eq in Eg, Ep. subst. contradiction N. reflexivity.
Qed.

(** X8.  [ApplyScoreDelta] on one pair leaves the score of every other
    pair, the players and the games as they were. *)
Theorem delta_leaves_other_pairs (d : DB) (g p delta g' p' : Z) :
  (g', p') <> (g, p) ->
  score_of (fst (ApplyScoreDelta d g p delta)) g' p' = score_of d g' p'
  /\ players (fst (ApplyScoreDelta d g p delta)) = players d
  /\ games (fst (ApplyScoreDelta d g p delta)) = games d.
Proof.
  intros N.
  destruct (GoInt.in_range g && GoInt.in_range p && GoInt.in_range delta) eqn:E.
  - apply andb_true_iff in E. destruct E as [E Hd].
    apply andb_true_iff in E. destruct E as [Hg Hp].
    rewrite (fst_ApplyScoreDelta d g p delta Hg Hp Hd).
    split; [|split; reflexivity].
    unfold score_of. cbn [game_players]. rewrite find_bump.
    destruct (find (same_pair g' p') (game_players d)) as [x|] eqn:F; [|reflexivity].
    apply find_some in F. destruct F as [_ Sx]. cbn [option_map].
    unfold bump. rewrite (other_pair g p g' p' x N Sx). reflexivity.
  - rewrite (ApplyScoreDelta_not_int d g p delta E). repeat split.
Qed.

(** X9.  A delta that takes an integer score out of the 64-bit range is
    answered with the error response, and is stored all the same: the score
    of the pair is the REAL sum from then on, and the database is no longer
    what it was. *)
Theorem overflow_is_stored (d : DB) (g p s delta : Z) :
  GoInt.in_range g = true -> GoInt.in_range p = true -> GoInt.in_range delta = true ->
  score_of d g p = Some (Integer s) ->
  GoInt.in_range (s + delta) = false ->
  snd (ApplyScoreDelta d g p delta) = respondWithError 500
  /\ score_of (fst (ApplyScoreDelta d g p delta)) g p
     = Some (Real (real_add (real_of_int s) (real_of_int delta)))
  /\ fst (ApplyScoreDelta d g p delta) <> d.
Proof.
  intros Hg Hp Hd S O.
  assert (S' : score_of (fst (ApplyScoreDelta d g p delta)) g p
               = Some (Real (real_add (real_of_int s) (real_of_int delta)))).
  { rewrite (score_of_ApplyScoreDelta d g p delta Hg Hp Hd), S.
    cbn [option_map add_int]. rewrite O. reflexivity. }
  split; [|split; [exact S'|]].
  - rewrite (fst_ApplyScoreDelta d g p delta Hg Hp Hd) in S'.
    rewrite (ApplyScoreDelta_eq d g p delta Hg Hp Hd). cbv zeta.
    unfold select_score. unfold score_of in S'.
    destruct (find (same_pair g p) _) as [x|]; [|discriminate].
    cbn [option_map] in S'. inversion S' as [S'']. rewrite S''. reflexivity.
  - intros E. rewrite E, S in S'. discriminate.
Qed.

Lemma scan_rows_not_integer (rows : list GamePlayerRow) :
  forallb integer_score rows = false -> scan_rows rows = Err ErrScan.
Proof.
  induction rows as [|r rows IH]; cbn [forallb scan_rows]; [discriminate|].
  unfold integer_score at 1.
  destruct (gp_score r) as [|i|f]; cbn [scan_int andb]; try reflexivity.
  intros E. rewrite (IH E). reflexivity.
Qed.

(** X10.  [ListScores] is answered with the error response exactly when
    some row of the game holds a score that is not an integer; it changes
    the database in no case. *)
Theorem listing_fails_on_a_real_score (d : DB) (id : string) :
  fst (ListScores d id) = d
  /\ (forallb integer_score (select_game_players d id) = false ->
      snd (ListScores d id) = respondWithError 500)
  /\ (snd (ListScores d id) = respondWithError 500 ->
      forallb integer_score (select_game_players d id) = false).
Proof.
  rewrite ListScores_eq. split; [|split].
  - destruct (scan_rows _); reflexivity.
  - intros E. rewrite (scan_rows_not_integer _ E). reflexivity.
  - intros E. destruct (forallb integer_score (select_game_players d id)) eqn:I;
      [|reflexivity].
    destruct (scan_rows_integer _ I) as [l Sc]. rewrite Sc in E. discriminate.
Qed.

Lemma bump_zero_row (d : DB) (g p s : Z) (x : GamePlayerRow) :
  reachable d ->
  score_of d g p = Some (Integer s) ->
  In x (game_players d) ->
  bump 0 g p x = x.
Proof.
  intros R S Hx. unfold bump.
  destruct (same_pair g p x) eqn:Sx; [|reflexivity].
  destruct (score_of_some d g p _ S) as (r0 & _ & Hin & Hs & Hv).
  assert (x = r0).
  { apply (unique_key_row pair_of (game_players d)); try assumption.
    - apply reachable_keys_unique. exact R.
    - apply same_pair_true in Sx, Hs. congruence. }
  subst x. rewrite Hv. cbn [add_int]. rewrite Z.add_0_r.
  rewrite (reachable_integer_scores d R r0 s Hin Hv).
  destruct r0; cbn in *; subst; reflexivity.
Qed.

(** X11.  [ApplyScoreDelta] with delta 0 reads the score: for an attached
    pair with the integer score [s] it answers [s] and leaves the database
    exactly as it was. *)
Theorem zero_delta_reads_the_score (d : DB) (g p s : Z) :
  reachable d ->
  score_of d g p = Some (Integer s) ->
  ApplyScoreDelta d g p 0
  = (d, {| Status := StatusCreated; Body := Updated s "game_updated" true |}).
Proof.
  intros R S.
  destruct (reachable_pair_in_range d g p R (score_of_attached _ _ _ _ S)) as [Hg Hp].
  rewrite (ApplyScoreDelta_eq d g p 0 Hg Hp eq_refl). cbv zeta.
  assert (M : map (bump 0 g p) (game_players d) = game_players d).
  { rewrite <- (map_id (game_players d)) at 2. apply map_ext_in.
    intros x Hx. exact (bump_zero_row d g p s x R S Hx). }
  rewrite M, DB_eta. unfold select_score.
  destruct (score_of_some d g p _ S) as (r0 & F & _ & _ & Hv).
  rewrite F, Hv. reflexivity.
Qed.

Lemma find_app_none {A : Type} (f : A -> bool) (l l' : list A) :
  find f l = None -> find f (l ++ l') = find f l'.
Proof.
  induction l as [|x l IH]; cbn [find app]; [reflexivity|].
  destruct (f x); [discriminate | exact IH].
Qed.

(** X12.  A player who has just been attached has the score 0; the id that
    is answered is the number of attachments made so far; and the scores of
    all other pairs are what they were. *)
Theorem attached_player_starts_at_zero (d : DB) (g p : Z) :
  reachable d ->
  succeeded (snd (AttachPlayer d g p)) = true ->
  let d' := fst (AttachPlayer d g p) in
  score_of d' g p = Some (Integer 0)
  /\ snd (AttachPlayer d g p)
     = {| Status := StatusCreated;
          Body := Created (Z.of_nat (List.length (game_players d')))
                    "game_player_created" true |}
  /\ forall g' p', (g', p') <> (g, p) -> score_of d' g' p' = score_of d g' p'.
Proof.
  intros R S d'. subst d'.
  destruct (AttachPlayer_success d g p S) as (Hg & Hp & A & _).
  rewrite (AttachPlayer_new_pair d g p Hg Hp A). cbn [fst snd game_players].
  unfold attached in A. split; [|split].
  - unfold score_of. cbn [game_players].
    rewrite (find_app_none _ _ _ (find_absent _ _ _ A)).
    cbn [find]. unfold same_pair at 1. cbn [new_row gp_game_id gp_player_id].
    rewrite !Z.eqb_refl. reflexivity.
  - destruct (reachable_ids d R) as (_ & _ & Ik).
    rewrite length_app, Ik, next_rowid_iota. cbn [List.length].
    rewrite Nat.add_1_r. reflexivity.
  - intros g' p' N. unfold score_of. cbn [game_players].
    destruct (find (same_pair g' p') (game_players d)) as [x|] eqn:F.
    + rewrite (find_app_some _ _ _ _ F). reflexivity.
    + rewrite (find_app_none _ _ _ F). cbn [find].
      unfold same_pair. cbn [new_row gp_game_id gp_player_id].
      destruct (g =? g') eqn:Eg; [|reflexivity].
      destruct (p =? p') eqn:Ep; [|reflexivity].
      apply Z.eqb_eq in Eg, Ep. subst. contradiction N. reflexivity.
Qed.

(** ** The two entry points *)


End ServerFacts.

(* ================================================================= *)
(** * The client and the server *)

Section ClientFacts.

Context `{ElmString}.

(** ** What the decoders make of the server's documents *)

(** Every document the server writes is an object. *)
Lemma encode_object (p : payload) (j : json) :
  encode p = Some j -> exists members, j = JObject members.
Proof.
  destruct p; cbn [encode]; intros E; inversion E; eexists; reflexivity.
Qed.

Lemma playerDecoder_refuses (body : option json) (p : payload) :
  body = encode p ->
  match body with
  | Some j => Client.playerDecoder j = None
  | None => True
  end.
Proof.
  intros ->. destruct (encode p) as [j|] eqn:E; [|exact I].
  destruct (encode_object p j E) as [members ->]. reflexivity.
Qed.

Lemma gamePlayersDecoder_refuses (body : option json) (p : payload) :
  body = encode p ->
  match body with
  | Some j => Client.gamePlayersDecoder j = None
  | None => True
  end.
Proof.
  intros ->. destruct (encode p) as [j|] eqn:E; [|exact I].
  destruct (encode_object p j E) as [members ->]. reflexivity.
Qed.

Lemma players_response (response : Client.Http_Response) :
  from_server response ->
  exists e, Client.expectJson Client.ReceivePlayers Client.playerDecoder response
            = Client.ReceivePlayers (Client.Err e).
Proof.
  intros [reply| | |url]; try (eexists; reflexivity).
  unfold wire, Client.expectJson.
  destruct ((200 <=? Status reply) && (Status reply <? 300)); [|eexists; reflexivity].
  pose proof (playerDecoder_refuses _ (Body reply) eq_refl) as P.
  destruct (encode (Body reply)) as [j|]; [rewrite P|]; eexists; reflexivity.
Qed.

Lemma game_players_response (response : Client.Http_Response) :
  from_server response ->
  exists e, Client.expectJson Client.ReceiveGamePlayers Client.gamePlayersDecoder response
            = Client.ReceiveGamePlayers (Client.Err e).
Proof.
  intros [reply| | |url]; try (eexists; reflexivity).
  unfold wire, Client.expectJson.
  destruct ((200 <=? Status reply) && (Status reply <? 300)); [|eexists; reflexivity].
  pose proof (gamePlayersDecoder_refuses _ (Body reply) eq_refl) as P.
  destruct (encode (Body reply)) as [j|]; [rewrite P|]; eexists; reflexivity.
Qed.

(** ** The error message *)

Lemma update_keeps_error (msg : Client.Msg) (m : Client.Model) :
  Client.error m <> None -> Client.error (fst (Client.update msg m)) <> None.
Proof.
  intros E. destruct msg as [n| | |pts|i|sc|res|res|res|message]; cbn [Client.update];
    try exact E; try discriminate.
  - unfold Client.createGame. destruct (String_toInt _); [exact E | discriminate].
  - destruct res; [exact E | discriminate].
  - destruct res; [exact E | discriminate].
  - destruct res; [exact E | discriminate].
Qed.

(** X14.  The client never takes an error message back: once [error] is
    set, it is set after every further message, whatever the message is. *)
Theorem error_is_never_cleared (msgs : list Client.Msg) (m : Client.Model) :
  Client.error m <> None -> Client.error (Client.run m msgs) <> None.
Proof.
  revert m. induction msgs as [|msg msgs IH]; intros m E; cbn [Client.run].
  - exact E.
  - apply IH, update_keeps_error, E.
Qed.

(** X15.  [AddScore] sends the score for player 1, whoever is meant, and
    whatever comes back, the success of the server included, the client
    sets the error "Failed to update score" and changes nothing else. *)
Theorem add_score_always_reports_failure
  (score : Z) (m m' : Client.Model) (response : Client.Http_Response) :
  exists expect,
    Client.update (Client.AddScore score) m
    = (m, Client.Http_request "PUT" "http://localhost:8080/games/update-score"
            (Some (JObject [("game_id", JNumber (Client.gameId m));
                            ("player_id", JNumber 1);
                            ("score", JNumber score)]))
            expect)
    /\ Client.update (expect response) m'
       = (Client.with_error "Failed to update score" m', Client.Cmd_none).
Proof.
  eexists. split; [reflexivity|]. destruct response; reflexivity.
Qed.

(** X16.  [AddPlayer] posts the name to ["/players/add"], and whatever the
    server answers, its success included, the client reports "Failed to add
    player." and leaves its list of players as it is: the decoder expects a
    list of objects with a [name], and every document of the server is a
    single object. *)
Theorem add_player_is_reported_failed
  (m m' : Client.Model) (response : Client.Http_Response) :
  from_server response ->
  exists expect,
    Client.update Client.AddPlayer m
    = (m, Client.Http_post "http://localhost:8080/players/add"
            (JObject [("name", JString (Client.playerName m))]) expect)
    /\ Client.update (expect response) m'
       = (Client.with_error "Failed to add player." m', Client.Cmd_none).
Proof.
  intros S. eexists. split; [reflexivity|].
  destruct (players_response response S) as [e ->]. reflexivity.
Qed.

(** X17.  [FetchGamePlayers] asks ["/games"] for the client's game, and
    whatever the server answers, the client reports "Failed to fetch game
    players." and leaves its scores as they are: the decoder expects a list
    of objects with [player_name] and [score], and the server sends an
    object with the list under [data]. *)
Theorem fetch_game_players_is_reported_failed
  (id : Z) (m m' : Client.Model) (response : Client.Http_Response) :
  from_server response ->
  exists expect,
    Client.update (Client.FetchGamePlayers id) m
    = (m, Client.Http_get
            ("http://localhost:8080/games?game_id=" ++ String_fromInt (Client.gameId m))%string
            expect)
    /\ Client.update (expect response) m'
       = (Client.with_error "Failed to fetch game players." m', Client.Cmd_none).
Proof.
  intros S. eexists. split; [reflexivity|].
  destruct (game_players_response response S) as [e ->]. reflexivity.
Qed.

(** ** Creating a game *)

Lemma js_number_small (z : Z) : 0 < z <= 2 ^ 53 -> js_number z = Some z.
Proof.
  intros B. unfold js_number.
  destruct (Z.abs z <=? 2 ^ 53) eqn:E; [reflexivity|].
  apply Z.leb_gt in E. lia.
Qed.

(** X18.  [CreateGame] posts the ceiling the page holds to ["/games/new"];
    from the server's answer to it the client takes the id of the new game
    as its [gameId], and any answer with a status outside 200..299 makes it
    report "Failed to create game." *)
Theorem created_game_id_reaches_client `{TextAffinity}
  (m m' : Client.Model) (d : DB) (points : Z) :
  String_toInt (Client.maxPoints m) = Some points ->
  GoInt.in_range points = true ->
  next_rowid (map gm_id (games d)) <= 2 ^ 53 ->
  exists expect,
    Client.update Client.CreateGame m
    = (m, Client.Http_post "http://localhost:8080/games/new"
            (JObject [("max_points", JNumber points)]) expect)
    /\ Client.update (expect (wire (snd (CreateGame d points)))) m'
       = ({| Client.players := Client.players m';
             Client.playerName := Client.playerName m';
             Client.gameId := next_rowid (map gm_id (games d));
             Client.maxPoints := Client.maxPoints m';
             Client.scores := Client.scores m';
             Client.newScore := Client.newScore m';
             Client.error := Client.error m' |}, Client.Cmd_none)
    /\ (forall reply,
           (200 <=? Status reply) && (Status reply <? 300) = false ->
           Client.update (expect (wire reply)) m'
           = (Client.with_error "Failed to create game." m', Client.Cmd_none)).
Proof.
  intros T Hp B. eexists. split; [|split].
  - cbn [Client.update]. unfold Client.createGame. rewrite T. reflexivity.
  - rewrite (CreateGame_eq d points Hp). cbn [snd].
    unfold wire. cbn [Status Body encode].
    change ((200 <=? StatusCreated) && (StatusCreated <? 300)) with true. cbv iota.
    unfold Client.expectJson, Client.gameDecoder, Client.Decode_field.
    cbn [member]. cbn -[js_number next_rowid Z.pow].
    unfold Client.Decode_int.
    rewrite js_number_small by (pose proof (next_rowid_positive (map gm_id (games d))); lia).
    reflexivity.
  - intros reply S. unfold wire. rewrite S. reflexivity.
Qed.

(** ** A session *)

Lemma page_message (msg : Client.Msg) (m : Client.Model) :
  Client.from_page msg = true ->
  Client.players (fst (Client.update msg m)) = Client.players m
  /\ Client.scores (fst (Client.update msg m)) = Client.scores m
  /\ Forall harmless (pending_of (snd (Client.update msg m))).
Proof.
  destruct msg as [n| | |pts|i|sc|res|res|res|message]; try discriminate; intros _;
    cbn [Client.update].
  - repeat split. constructor.
  - repeat split. constructor; [|constructor].
    intros response m0 S. destruct (players_response response S) as [e ->].
    repeat split.
  - unfold Client.createGame. destruct (String_toInt _); cbn [fst snd pending_of].
    + repeat split. constructor; [|constructor].
      intros response m0 S.
      destruct (Client.expectJson Client.ReceiveGame Client.gameDecoder response) eqn:E;
        unfold Client.expectJson in E; try discriminate.
      inversion E. cbn [Client.update]. destruct response;
        repeat match goal with |- context [match ?x with _ => _ end] => destruct x end;
        repeat split.
    + repeat split. constructor.
  - repeat split. constructor.
  - repeat split. constructor; [|constructor].
    intros response m0 S. destruct (game_players_response response S) as [e ->].
    repeat split.
  - repeat split. constructor; [|constructor].
    intros response m0 S. destruct response; repeat split.
Qed.

(** X19.  In every session of the client with this server, the client's
    list of players and its list of scores stay empty: no response the
    server can give is accepted by the decoders that would fill them. *)
Theorem client_lists_stay_empty (m : Client.Model)
  (waiting : list (Client.Http_Response -> Client.Msg)) :
  session m waiting ->
  Client.players m = [] /\ Client.scores m = [].
Proof.
  intros S.
  assert (I : Client.players m = [] /\ Client.scores m = [] /\ Forall harmless waiting).
  { induction S as [|m waiting msg _ (Ip & Is & Iw) P
                    |m waiting expect response _ (Ip & Is & Iw) Hin R].
    - repeat split. constructor.
    - destruct (page_message msg m P) as (Ep & Es & Ew).
      rewrite Ep, Es. repeat split; try assumption.
      apply Forall_app. split; assumption.
    - rewrite Forall_forall in Iw.
      pose proof (Iw expect Hin response m R) as (Ep & Es & Ec).
      rewrite Ep, Es, Ec. repeat split; try assumption.
      apply Forall_forall. exact Iw. }
  destruct I as (Ep & Es & _). auto.
Qed.

End ClientFacts.

(* ================================================================= *)
(** ** The further properties on the sample states *)

(** X2: a GET to ["/players/add"] with a name in its body. *)
Lemma only_post_and_put_change_store_witness :
  Method (get_with_name "Carol") <> MethodPost
  /\ Method (get_with_name "Carol") <> MethodPut
  /\ fst (@serve decimal_text PlayersAdd alice_and_bob (get_with_name "Carol"))
     = alice_and_bob.
Proof.
  assert (A : Method (get_with_name "Carol") <> MethodPost) by discriminate.
  assert (B : Method (get_with_name "Carol") <> MethodPut) by discriminate.
  split; [exact A|]. split; [exact B|].
  exact (@only_post_and_put_change_store decimal_text PlayersAdd alice_and_bob
           (get_with_name "Carol") A B).
Defined.

(** X4: two players, one game and two attachments. *)
Lemma ids_count_from_one_witness :
  @reachable decimal_text alice_and_bob
  /\ map pl_id (players alice_and_bob) = [1; 2]
  /\ map gm_id (games alice_and_bob) = [1]
  /\ map gp_rowid (game_players alice_and_bob) = [1; 2]
  /\ next_rowid (map pl_id (players alice_and_bob)) = 3.
Proof.
  destruct (@ids_count_from_one decimal_text alice_and_bob reachable_alice_and_bob)
    as (A & B & C & _ & _ & D).
  split; [exact reachable_alice_and_bob|].
  split; [exact A|]. split; [exact B|]. split; [exact C | exact D].
Defined.

(** X5: a second game with ceiling 500, followed by an attachment to it and
    a third game. *)
Lemma ceiling_is_kept_witness :
  @reachable decimal_text alice_and_bob
  /\ GoInt.in_range 500 = true
  /\ (let d' := @run decimal_text (fst (@CreateGame decimal_text alice_and_bob 500))
                  [attach_request 2 1;
                   (GamesNew, request MethodPost
                                {| name := EmptyString; max_points := 9; game_id := 0;
                                   player_id := 0; score := 0 |})] in
      snd (@CreateGame decimal_text alice_and_bob 500)
      = {| Status := StatusCreated; Body := Created 2 "game_created" true |}
      /\ In {| gm_id := 2; gm_max_points := 500 |} (games d')
      /\ forall row, In row (games d') -> gm_id row = 2 -> gm_max_points row = 500).
Proof.
  split; [exact reachable_alice_and_bob|]. split; [reflexivity|].
  exact (@ceiling_is_kept decimal_text alice_and_bob 500 _ reachable_alice_and_bob eq_refl).
Defined.

(** X6: Carol registers, and a game is created after her. *)
Lemma name_is_kept_witness :
  @reachable decimal_text alice_and_bob
  /\ "Carol" <> EmptyString
  /\ (let d' := @run decimal_text (fst (@RegisterPlayer decimal_text alice_and_bob "Carol"))
                  [attach_request 1 3] in
      snd (@RegisterPlayer decimal_text alice_and_bob "Carol")
      = {| Status := StatusCreated; Body := Created 3 "user_created" true |}
      /\ In {| pl_id := 3; pl_name := "Carol" |} (players d')
      /\ forall row, In row (players d') -> pl_id row = 3 -> pl_name row = "Carol").
Proof.
  assert (N : "Carol" <> EmptyString) by discriminate.
  split; [exact reachable_alice_and_bob|]. split; [exact N|].
  exact (@name_is_kept decimal_text alice_and_bob "Carol" _ reachable_alice_and_bob N).
Defined.

(** X7: a delta for Alice, with and without the players and the game. *)
Lemma ledger_ignores_players_and_games_witness :
  ledger_route GamesUpdateScore = true
  /\ game_players alice_and_bob = game_players attachments_only
  /\ snd (@serve decimal_text GamesUpdateScore alice_and_bob (snd (delta_request 1 1 4000)))
     = snd (@serve decimal_text GamesUpdateScore attachments_only (snd (delta_request 1 1 4000)))
  /\ game_players
       (fst (@serve decimal_text GamesUpdateScore alice_and_bob (snd (delta_request 1 1 4000))))
     = game_players
         (fst (@serve decimal_text GamesUpdateScore attachments_only
                 (snd (delta_request 1 1 4000)))).
Proof.
  split; [reflexivity|]. split; [reflexivity|].
  exact (@ledger_ignores_players_and_games decimal_text GamesUpdateScore alice_and_bob
           attachments_only (snd (delta_request 1 1 4000)) eq_refl eq_refl).
Defined.

(** X8: a delta for Alice leaves Bob's score. *)
Lemma delta_leaves_other_pairs_witness :
  (1, 2) <> (1, 1)
  /\ score_of (fst (@ApplyScoreDelta decimal_text alice_and_bob 1 1 50)) 1 2
     = score_of alice_and_bob 1 2
  /\ players (fst (@ApplyScoreDelta decimal_text alice_and_bob 1 1 50))
     = players alice_and_bob
  /\ games (fst (@ApplyScoreDelta decimal_text alice_and_bob 1 1 50))
     = games alice_and_bob.
Proof.
  assert (N : (1, 2) <> (1, 1)) by discriminate.
  split; [exact N|].
  exact (@delta_leaves_other_pairs decimal_text alice_and_bob 1 1 50 1 2 N).
Defined.

(** X9: one more point for Bob at the largest [int]. *)
Lemma overflow_is_stored_witness :
  score_of bob_at_the_top 1 2 = Some (Integer GoInt.max_int)
  /\ GoInt.in_range (GoInt.max_int + 1) = false
  /\ snd (@ApplyScoreDelta decimal_text bob_at_the_top 1 2 1) = respondWithError 500
  /\ score_of (fst (@ApplyScoreDelta decimal_text bob_at_the_top 1 2 1)) 1 2
     = Some (Real (real_add (real_of_int GoInt.max_int) (real_of_int 1)))
  /\ fst (@ApplyScoreDelta decimal_text bob_at_the_top 1 2 1) <> bob_at_the_top.
Proof.
  split; [reflexivity|]. split; [reflexivity|].
  exact (@overflow_is_stored decimal_text bob_at_the_top 1 2 GoInt.max_int 1
           eq_refl eq_refl eq_refl eq_refl eq_refl).
Defined.

(** X10: the listing of game 1 after Bob's overflow, and before. *)
Lemma listing_fails_on_a_real_score_witness :
  forallb integer_score (@select_game_players decimal_text overflowed "1") = false
  /\ snd (@ListScores decimal_text overflowed "1") = respondWithError 500
  /\ fst (@ListScores decimal_text overflowed "1") = overflowed.
Proof.
  destruct (@listing_fails_on_a_real_score decimal_text overflowed "1") as (A & B & _).
  split; [reflexivity|]. split; [exact (B eq_refl) | exact A].
Defined.

(** X11: Alice's score is read after she has scored 120. *)
Lemma zero_delta_reads_the_score_witness :
  @reachable decimal_text alice_at_120
  /\ score_of alice_at_120 1 1 = Some (Integer 120)
  /\ @ApplyScoreDelta decimal_text alice_at_120 1 1 0
     = (alice_at_120,
        {| Status := StatusCreated; Body := Updated 120 "game_updated" true |}).
Proof.
  assert (R : @reachable decimal_text alice_at_120)
    by (apply reachable_run; exact reachable_alice_and_bob).
  split; [exact R|]. split; [reflexivity|].
  exact (@zero_delta_reads_the_score decimal_text alice_at_120 1 1 120 R eq_refl).
Defined.

(** X12: Alice is attached to the game. *)
Lemma attached_player_starts_at_zero_witness :
  @reachable decimal_text one_game
  /\ succeeded (snd (@AttachPlayer decimal_text one_game 1 1)) = true
  /\ score_of (fst (@AttachPlayer decimal_text one_game 1 1)) 1 1 = Some (Integer 0)
  /\ snd (@AttachPlayer decimal_text one_game 1 1)
     = {| Status := StatusCreated; Body := Created 1 "game_player_created" true |}.
Proof.
  destruct (@attached_player_starts_at_zero decimal_text one_game 1 1
              reachable_one_game eq_refl) as (A & B & _).
  split; [exact reachable_one_game|]. split; [reflexivity|].
  split; [exact A | exact B].
Defined.


(** X14: an error, then a name typed and a game received. *)
Lemma error_is_never_cleared_witness :
  Client.error (Client.with_error "Failed to add player." Client.initialModel) <> None
  /\ Client.error
       (@Client.run decimal_strings
          (Client.with_error "Failed to add player." Client.initialModel)
          [Client.SetPlayerName "Bob"; Client.ReceiveGame (Client.Ok 3)]) <> None.
Proof.
  assert (E : Client.error (Client.with_error "Failed to add player." Client.initialModel)
              <> None) by discriminate.
  split; [exact E|].
  exact (@error_is_never_cleared decimal_strings
           [Client.SetPlayerName "Bob"; Client.ReceiveGame (Client.Ok 3)] _ E).
Defined.

(** X16: the server registers Alice, and the client reports a failure. *)
Lemma add_player_is_reported_failed_witness :
  from_server (wire (snd (@RegisterPlayer decimal_text initDB "Alice")))
  /\ snd (@RegisterPlayer decimal_text initDB "Alice")
     = {| Status := StatusCreated; Body := Created 1 "user_created" true |}
  /\ exists expect,
       @Client.update decimal_strings Client.AddPlayer
         (fst (Client.setPlayerName "Alice" Client.initialModel))
       = (fst (Client.setPlayerName "Alice" Client.initialModel),
          Client.Http_post "http://localhost:8080/players/add"
            (JObject [("name", JString "Alice")]) expect)
       /\ @Client.update decimal_strings
            (expect (wire (snd (@RegisterPlayer decimal_text initDB "Alice"))))
            (fst (Client.setPlayerName "Alice" Client.initialModel))
          = (Client.with_error "Failed to add player."
               (fst (Client.setPlayerName "Alice" Client.initialModel)),
             Client.Cmd_none).
Proof.
  assert (S : from_server (wire (snd (@RegisterPlayer decimal_text initDB "Alice"))))
    by constructor.
  split; [exact S|]. split; [reflexivity|].
  exact (@add_player_is_reported_failed decimal_strings
           (fst (Client.setPlayerName "Alice" Client.initialModel))
           (fst (Client.setPlayerName "Alice" Client.initialModel)) _ S).
Defined.

(** X17: the server lists the two players of game 1, and the client reports
    a failure. *)
Lemma fetch_game_players_is_reported_failed_witness :
  from_server (wire (snd (@ListScores decimal_text alice_and_bob "1")))
  /\ succeeded (snd (@ListScores decimal_text alice_and_bob "1")) = true
  /\ exists expect,
       @Client.update decimal_strings (Client.FetchGamePlayers 1) Client.initialModel
       = (Client.initialModel,
          Client.Http_get "http://localhost:8080/games?game_id=0" expect)
       /\ @Client.update decimal_strings
            (expect (wire (snd (@ListScores decimal_text alice_and_bob "1"))))
            Client.initialModel
          = (Client.with_error "Failed to fetch game players." Client.initialModel,
             Client.Cmd_none).
Proof.
  assert (S : from_server (wire (snd (@ListScores decimal_text alice_and_bob "1"))))
    by constructor.
  split; [exact S|]. split; [reflexivity|].
  exact (@fetch_game_players_is_reported_failed decimal_strings 1
           Client.initialModel Client.initialModel _ S).
Defined.

(** X18: the page holds "3000", and the server creates its first game. *)
Lemma created_game_id_reaches_client_witness :
  elm_toInt "3000" = Some 3000
  /\ GoInt.in_range 3000 = true
  /\ next_rowid (map gm_id (games initDB)) <= 2 ^ 53
  /\ exists expect,
       @Client.update decimal_strings Client.CreateGame (page_with_ceiling "3000")
       = (page_with_ceiling "3000",
          Client.Http_post "http://localhost:8080/games/new"
            (JObject [("max_points", JNumber 3000)]) expect)
       /\ Client.gameId
            (fst (@Client.update decimal_strings
                    (expect (wire (snd (@CreateGame decimal_text initDB 3000))))
                    (page_with_ceiling "3000"))) = 1.
Proof.
  assert (B : next_rowid (map gm_id (games initDB)) <= 2 ^ 53) by (vm_compute; discriminate).
  split; [reflexivity|]. split; [reflexivity|]. split; [exact B|].
  destruct (@created_game_id_reaches_client decimal_strings decimal_text
              (page_with_ceiling "3000") (page_with_ceiling "3000") initDB 3000
              eq_refl eq_refl B) as (expect & A1 & A2 & _).
  exists expect. split; [exact A1|]. rewrite A2. reflexivity.
Defined.

(** X19: a name is typed, sent, and the server's answer arrives. *)
Lemma client_lists_stay_empty_witness :
  exists m waiting,
    @session decimal_strings m waiting
    /\ Client.error m = Some "Failed to add player."
    /\ Client.players m = []
    /\ Client.scores m = [].
Proof.
  pose (m1 := fst (@Client.update decimal_strings (Client.SetPlayerName "Alice")
                     Client.initialModel)).
  pose (e := Client.expectJson Client.ReceivePlayers Client.playerDecoder).
  pose (r := wire (snd (@RegisterPlayer decimal_text initDB "Alice"))).
  assert (S : @session decimal_strings
                (fst (@Client.update decimal_strings (e r) m1))
                (pending_of (snd (@Client.update decimal_strings (e r) m1)) ++ [e])).
  { apply (@session_response decimal_strings m1 [e] e r).
    - apply (@session_page decimal_strings m1 [] Client.AddPlayer); [|reflexivity].
      apply (@session_page decimal_strings Client.initialModel []
               (Client.SetPlayerName "Alice")); [|reflexivity].
      apply session_init.
    - left. reflexivity.
    - constructor. }
  eexists _, _. split; [exact S|]. split; [reflexivity|].
  exact (@client_lists_stay_empty decimal_strings _ _ S).
Defined.

(* ================================================================= *)
(** ** Requests in a row *)

Section Sequences.

Context `{TextAffinity}.

Lemma bump_twice_row (d : DB) (g p s a b : Z) (x : GamePlayerRow) :
  reachable d ->
  score_of d g p = Some (Integer s) ->
  GoInt.in_range (s + a) = true ->
  GoInt.in_range (s + a + b) = true ->
  In x (game_players d) ->
  bump b g p (bump a g p x) = bump (a + b) g p x.
Proof.
  intros R S Ra Rab Hx.
  unfold bump at 1. rewrite same_pair_bump. unfold bump.
  destruct (same_pair g p x) eqn:Sx; [|reflexivity].
  destruct (score_of_some d g p _ S) as (r0 & _ & Hin & Hs & Hv).
  assert (x = r0).
  { apply (unique_key_row pair_of (game_players d)); try assumption.
    - apply reachable_keys_unique. exact R.
    - apply same_pair_true in Sx, Hs. congruence. }
  subst x. cbn [gp_rowid gp_game_id gp_player_id gp_score]. rewrite Hv.
  cbn [add_int]. rewrite Ra. cbn [add_int]. rewrite Rab.
  rewrite Z.add_assoc, Rab. reflexivity.
Qed.

(** X20.  Two deltas in a row are one delta: for a pair with the integer
    score [s], when the deltas, their sum and the two totals are [int]s,
    applying [a] and then [b] leaves the database that applying [a + b]
    leaves, and the second answer is the answer to [a + b], which is
    [s + a + b]. *)
Theorem deltas_compose (d : DB) (g p s a b : Z) :
  reachable d ->
  score_of d g p = Some (Integer s) ->
  GoInt.in_range a = true -> GoInt.in_range b = true -> GoInt.in_range (a + b) = true ->
  GoInt.in_range (s + a) = true -> GoInt.in_range (s + a + b) = true ->
  ApplyScoreDelta (fst (ApplyScoreDelta d g p a)) g p b = ApplyScoreDelta d g p (a + b)
  /\ snd (ApplyScoreDelta d g p (a + b))
     = {| Status := StatusCreated; Body := Updated (s + a + b) "game_updated" true |}.
Proof.
  intros R S Ha Hb Hab Ra Rab.
  destruct (reachable_pair_in_range d g p R (score_of_attached _ _ _ _ S)) as [Hg Hp].
  assert (E : fst (ApplyScoreDelta (fst (ApplyScoreDelta d g p a)) g p b)
              = fst (ApplyScoreDelta d g p (a + b))).
  { rewrite (fst_ApplyScoreDelta _ g p b Hg Hp Hb), (fst_ApplyScoreDelta d g p a Hg Hp Ha),
      (fst_ApplyScoreDelta d g p (a + b) Hg Hp Hab).
    cbn [players games game_players]. f_equal. rewrite map_map. apply map_ext_in.
    intros x Hx. exact (bump_twice_row d g p s a b x R S Ra Rab Hx). }
  assert (Sc : score_of (fst (ApplyScoreDelta d g p (a + b))) g p
               = Some (Integer (s + a + b))).
  { rewrite (score_of_ApplyScoreDelta d g p (a + b) Hg Hp Hab), S.
    cbn [option_map add_int]. rewrite Z.add_assoc, Rab. reflexivity. }
  assert (A : forall d0 delta,
             GoInt.in_range delta = true ->
             score_of (fst (ApplyScoreDelta d0 g p delta)) g p = Some (Integer (s + a + b)) ->
             ApplyScoreDelta d0 g p delta
             = (fst (ApplyScoreDelta d0 g p delta),
                {| Status := StatusCreated;
                   Body := Updated (s + a + b) "game_updated" true |})).
  { intros d0 delta Hd S0.
    rewrite (fst_ApplyScoreDelta d0 g p delta Hg Hp Hd) in S0 |- *.
    rewrite (ApplyScoreDelta_eq d0 g p delta Hg Hp Hd). cbv zeta.
    unfold select_score. unfold score_of in S0.
    destruct (find (same_pair g p) _) as [x|]; [|discriminate].
    cbn [option_map] in S0. inversion S0 as [S1]. rewrite S1. reflexivity. }
  split.
  - rewrite (A _ b Hb) by (rewrite E; exact Sc).
    rewrite (A d (a + b) Hab Sc). rewrite E. reflexivity.
  - rewrite (A d (a + b) Hab Sc). reflexivity.
Qed.

(** X21.  Names need not differ: registering the same name twice succeeds
    twice, the second id is the first plus one, and both players are in the
    table. *)
Theorem same_name_twice (d : DB) (n : string) :
  reachable d ->
  n <> EmptyString ->
  let id := Z.of_nat (S (List.length (players d))) in
  let d1 := fst (RegisterPlayer d n) in
  let d2 := fst (RegisterPlayer d1 n) in
  snd (RegisterPlayer d n)
  = {| Status := StatusCreated; Body := Created id "user_created" true |}
  /\ snd (RegisterPlayer d1 n)
     = {| Status := StatusCreated; Body := Created (id + 1) "user_created" true |}
  /\ players d2
     = players d ++ [{| pl_id := id; pl_name := n |}; {| pl_id := id + 1; pl_name := n |}].
Proof.
  intros R Hn id d1 d2.
  assert (R1 : reachable d1) by (unfold d1, RegisterPlayer; constructor; exact R).
  destruct (reachable_ids d R) as (Ip & _).
  destruct (reachable_ids d1 R1) as (Ip1 & _).
  assert (N : next_rowid (map pl_id (players d)) = id)
    by (rewrite Ip; apply next_rowid_iota).
  assert (L1 : List.length (players d1) = S (List.length (players d))).
  { unfold d1. rewrite (RegisterPlayer_eq d n Hn). cbn [fst players].
    rewrite length_app. cbn [List.length]. lia. }
  assert (N1 : next_rowid (map pl_id (players d1)) = id + 1).
  { rewrite Ip1, next_rowid_iota, L1. unfold id. lia. }
  split; [rewrite (RegisterPlayer_eq d n Hn), N; reflexivity|].
  split; [rewrite (RegisterPlayer_eq d1 n Hn), N1; reflexivity|].
  unfold d2. rewrite (RegisterPlayer_eq d1 n Hn). cbn [fst players]. rewrite N1.
  unfold d1. rewrite (RegisterPlayer_eq d n Hn). cbn [fst players]. rewrite N.
  rewrite <- app_assoc. reflexivity.
Qed.

End Sequences.

(** X20: Alice, at 120, scores 30 and then loses 50. *)
Lemma deltas_compose_witness :
  @reachable decimal_text alice_at_120
  /\ score_of alice_at_120 1 1 = Some (Integer 120)
  /\ @ApplyScoreDelta decimal_text
       (fst (@ApplyScoreDelta decimal_text alice_at_120 1 1 30)) 1 1 (-50)
     = @ApplyScoreDelta decimal_text alice_at_120 1 1 (-20)
  /\ snd (@ApplyScoreDelta decimal_text alice_at_120 1 1 (-20))
     = {| Status := StatusCreated; Body := Updated 100 "game_updated" true |}.
Proof.
  assert (R : @reachable decimal_text alice_at_120)
    by (apply reachable_run; exact reachable_alice_and_bob).
  split; [exact R|]. split; [reflexivity|].
  exact (@deltas_compose decimal_text alice_at_120 1 1 120 30 (-50) R
           eq_refl eq_refl eq_refl eq_refl eq_refl eq_refl).
Defined.

(** X21: a second Alice. *)
Lemma same_name_twice_witness :
  @reachable decimal_text one_game
  /\ "Alice" <> EmptyString
  /\ snd (@RegisterPlayer decimal_text one_game "Alice")
     = {| Status := StatusCreated; Body := Created 3 "user_created" true |}
  /\ snd (@RegisterPlayer decimal_text (fst (@RegisterPlayer decimal_text one_game "Alice"))
            "Alice")
     = {| Status := StatusCreated; Body := Created 4 "user_created" true |}
  /\ players (fst (@RegisterPlayer decimal_text
                     (fst (@RegisterPlayer decimal_text one_game "Alice")) "Alice"))
     = players one_game
       ++ [{| pl_id := 3; pl_name := "Alice" |}; {| pl_id := 4; pl_name := "Alice" |}].
Proof.
  assert (N : "Alice" <> EmptyString) by discriminate.
  split; [exact reachable_one_game|]. split; [exact N|].
  exact (@same_name_twice decimal_text one_game "Alice" reachable_one_game N).
Defined.
